(** * multi_site_miner: a shallow embedding of the fetch-and-crawl core

  The development follows [miner_demo/multi_site_miner.py]: the retrying
  HTTP client ([Fetcher.get]), the minimal robots.txt check
  ([robots_allows]), the two example parsers ([parse_example_html],
  [parse_example_json]) and the crawl loop ([mine_target]).

  Python strings are modelled as [string], read as UTF-8 text (whitespace
  and line boundaries follow Unicode; case folding is the ASCII one),
  Python [int] as [Z],
  the [set] of seen URLs as a [gset string], the rows (dicts with string
  keys, insertion ordered) as association lists, and effects (network
  requests, sleeping, printing, exceptions) by a small monad that threads
  a request counter, collects the events of a run and carries the raised
  exception. *)

From Stdlib Require Import ZArith QArith Qminmax Ascii String.
From stdpp Require Import base strings list gmap sets sorting pretty.

Local Open Scope string_scope.
Local Open Scope Z_scope.
Local Open Scope list_scope.

(** ** Python string methods on UTF-8 text *)

Module PyStr.

(** [str.isspace] on one character: TAB..CR, FS..US and the space. *)
Definition isspace (c : ascii) : bool :=
  let n := nat_of_ascii c in
  ((9 <=? n)%nat && (n <=? 13)%nat) || ((28 <=? n)%nat && (n <=? 32)%nat).

Definition lower_char (c : ascii) : ascii :=
  let n := nat_of_ascii c in
  if ((65 <=? n)%nat && (n <=? 90)%nat) then ascii_of_nat (n + 32) else c.

(** [s.lower()] on the ASCII letters. Of the other characters Python
    lowers only U+0130 and U+212A to text with an ASCII letter ([i] then
    U+0307, and [k]), and neither can complete the prefixes [user-agent:]
    and [disallow:]: the prefix tests of [robots_allows] are those of
    Python on all text. The comparison of agent names is Python's for
    names whose cased letters are ASCII, the default agent [""] among
    them. *)
Fixpoint lower (s : string) : string :=
  match s with
  | EmptyString => EmptyString
  | String c s' => String (lower_char c) (lower s')
  end.

(** The text after one whitespace character at the head of [s], if [s]
    starts with one. Beyond the one-byte characters of [isspace] these are
    U+0085, U+00A0, U+1680, U+2000..U+200A, U+2028, U+2029, U+202F, U+205F
    and U+3000, in their UTF-8 encoding. *)
Definition skip_space (s : string) : option string :=
  match s with
  | EmptyString => None
  | String c s1 =>
      if isspace c then Some s1
      else
        match s1 with
        | String d s2 =>
            if Ascii.eqb c "194" && (Ascii.eqb d "133" || Ascii.eqb d "160")
            then Some s2
            else
              match s2 with
              | String e s3 =>
                  let ne := nat_of_ascii e in
                  if (Ascii.eqb c "225" && Ascii.eqb d "154" && Ascii.eqb e "128")
                     || (Ascii.eqb c "226" && Ascii.eqb d "128"
                         && (((128 <=? ne)%nat && (ne <=? 138)%nat)
                             || Ascii.eqb e "168" || Ascii.eqb e "169"
                             || Ascii.eqb e "175"))
                     || (Ascii.eqb c "226" && Ascii.eqb d "129" && Ascii.eqb e "159")
                     || (Ascii.eqb c "227" && Ascii.eqb d "128" && Ascii.eqb e "128")
                  then Some s3
                  else None
              | EmptyString => None
              end
        | EmptyString => None
        end
  end.

Fixpoint lstrip_upto (n : nat) (s : string) : string :=
  match n with
  | O => s
  | S n' =>
      match skip_space s with
      | Some rest => lstrip_upto n' rest
      | None => s
      end
  end.

(** [s.lstrip()]: at most [length s] characters can be skipped. *)
Definition lstrip (s : string) : string := lstrip_upto (String.length s) s.

Fixpoint all_space_upto (n : nat) (s : string) : bool :=
  match s with
  | EmptyString => true
  | String _ _ =>
      match n with
      | O => false
      | S n' =>
          match skip_space s with
          | Some rest => all_space_upto n' rest
          | None => false
          end
      end
  end.

(** [s.isspace()] or [s] is empty. *)
Definition all_space (s : string) : bool := all_space_upto (String.length s) s.

(** [s.rstrip()]: the text up to the point where only whitespace is left. *)
Fixpoint rstrip (s : string) : string :=
  match s with
  | EmptyString => EmptyString
  | String c s' => if all_space s then EmptyString else String c (rstrip s')
  end.

(** [s.strip()] *)
Definition strip (s : string) : string := rstrip (lstrip s).

(** [s.startswith(p)] *)
Definition startswith (s p : string) : bool := String.prefix p s.

(** [c in s] for a one-character needle. *)
Fixpoint contains (c : ascii) (s : string) : bool :=
  match s with
  | EmptyString => false
  | String d s' => if Ascii.eqb c d then true else contains c s'
  end.

(** [s.split(c, 1)] as the pair (before, Some after), or (s, None) when
    [c] does not occur: [s.split(c, 1)[1]] is the second component. *)
Fixpoint split1 (c : ascii) (s : string) : string * option string :=
  match s with
  | EmptyString => (EmptyString, None)
  | String d s' =>
      if Ascii.eqb c d then (EmptyString, Some s')
      else let '(a, b) := split1 c s' in (String d a, b)
  end.

(** The one-byte line boundaries of [str.splitlines]:
    LF, VT, FF, CR, FS, GS, RS. *)
Definition is_linebreak (c : ascii) : bool :=
  let n := nat_of_ascii c in
  ((10 <=? n)%nat && (n <=? 13)%nat) || ((28 <=? n)%nat && (n <=? 30)%nat).

(** The text after one line boundary at the head of [s], if [s] starts
    with one: a one-byte boundary (CR LF counts once), U+0085, U+2028 or
    U+2029. *)
Definition skip_linebreak (s : string) : option string :=
  match s with
  | EmptyString => None
  | String c s1 =>
      if is_linebreak c then
        match s1 with
        | String d s2 =>
            if Ascii.eqb c "013" && Ascii.eqb d "010" then Some s2 else Some s1
        | EmptyString => Some s1
        end
      else
        match s1 with
        | String d s2 =>
            if Ascii.eqb c "194" && Ascii.eqb d "133" then Some s2
            else
              match s2 with
              | String e s3 =>
                  if Ascii.eqb c "226" && Ascii.eqb d "128"
                     && (Ascii.eqb e "168" || Ascii.eqb e "169")
                  then Some s3
                  else None
              | EmptyString => None
              end
        | EmptyString => None
        end
  end.

(** The lines of [s] after the characters of the current line read so far
    ([cur], last first); [n] bounds the characters still to read. *)
Fixpoint splitlines_from (n : nat) (cur : string) (s : string) : list string :=
  match s with
  | EmptyString =>
      match cur with EmptyString => [] | _ => [String.rev cur] end
  | String c s' =>
      match n with
      | O => [String.rev cur]
      | S n' =>
          match skip_linebreak s with
          | Some rest => String.rev cur :: splitlines_from n' EmptyString rest
          | None => splitlines_from n' (String c cur) s'
          end
      end
  end.

(** [s.splitlines()] *)
Definition splitlines (s : string) : list string :=
  splitlines_from (String.length s) EmptyString s.

(** Truthiness of a string: non-empty. *)
Definition truthy (s : string) : bool :=
  match s with EmptyString => false | _ => true end.

Definition eqb (a b : string) : bool := String.eqb a b.

End PyStr.

(** ** Exceptions and results *)

(** The exception classes the program can raise or let through. All of them
    derive from [Exception]. *)
Inductive exn : Type :=
| HTTPError (status : Z) (transient : bool)
    (* requests.HTTPError: [transient] tells the raise at line 71 from
       the one of [resp.raise_for_status()] at line 72 *)
| Timeout                       (* requests.Timeout *)
| ConnectionError               (* requests.ConnectionError *)
| RequestException              (* any other exception of a request *)
| RuntimeError (msg : string)
| ValueError (msg : string)
| OverflowError (msg : string)
| UnicodeEncodeError (msg : string)
| OSError (msg : string)
| JSONDecodeError
| AttributeError (msg : string)
| TypeError (msg : string)
| IndexError (msg : string).

Inductive result (A : Type) : Type :=
| Ret (a : A)
| Raise (e : exn).
Arguments Ret {A} a.
Arguments Raise {A} e.

Definition rbind {A B} (r : result A) (k : A -> result B) : result B :=
  match r with Ret a => k a | Raise e => Raise e end.

(** [mapM] over a Python [for] loop whose body may raise. *)
Fixpoint rmap {A B} (f : A -> result B) (l : list A) : result (list B) :=
  match l with
  | [] => Ret []
  | a :: l' => rbind (f a) (fun b => rbind (rmap f l') (fun bs => Ret (b :: bs)))
  end.

(** ** urllib.parse.urlparse *)

Record ParseResult : Type := mkParseResult {
  scheme : string;
  netloc : string;
  path : string;
  params : string;
  query : string;
  fragment : string
}.

Module UrlParse.

Definition is_alpha (c : ascii) : bool :=
  let n := nat_of_ascii c in
  ((65 <=? n)%nat && (n <=? 90)%nat) || ((97 <=? n)%nat && (n <=? 122)%nat).

Definition is_digit (c : ascii) : bool :=
  let n := nat_of_ascii c in (48 <=? n)%nat && (n <=? 57)%nat.

(** [scheme_chars]: letters, digits and "+-." *)
Definition is_scheme_char (c : ascii) : bool :=
  is_alpha c || is_digit c
  || Ascii.eqb c "+" || Ascii.eqb c "-" || Ascii.eqb c ".".

Fixpoint all_chars (p : ascii -> bool) (s : string) : bool :=
  match s with
  | EmptyString => true
  | String c s' => p c && all_chars p s'
  end.

Fixpoint filter_chars (p : ascii -> bool) (s : string) : string :=
  match s with
  | EmptyString => EmptyString
  | String c s' => if p c then String c (filter_chars p s') else filter_chars p s'
  end.

(** [url.lstrip(_WHATWG_C0_CONTROL_OR_SPACE)]: leading characters up to
    the space. *)
Fixpoint lstrip_c0 (s : string) : string :=
  match s with
  | EmptyString => EmptyString
  | String c s' => if (nat_of_ascii c <=? 32)%nat then lstrip_c0 s' else s
  end.

(** [_UNSAFE_URL_BYTES_TO_REMOVE]: TAB, CR and LF are deleted anywhere. *)
Definition is_unsafe (c : ascii) : bool :=
  Ascii.eqb c "009" || Ascii.eqb c "010" || Ascii.eqb c "013".

(** The longest prefix without any character of "/?#", and the rest
    ([_splitnetloc] after the leading "//"). *)
Fixpoint splitnetloc (s : string) : string * string :=
  match s with
  | EmptyString => (EmptyString, EmptyString)
  | String c s' =>
      if Ascii.eqb c "/" || Ascii.eqb c "?" || Ascii.eqb c "#"
      then (EmptyString, s)
      else let '(a, b) := splitnetloc s' in (String c a, b)
  end.

(** The scheme and what follows its colon, when the text before the first
    colon is a non-empty run of scheme characters starting with a letter. *)
Definition split_scheme (url : string) : string * string :=
  match PyStr.split1 ":" url with
  | (String c0 pre, Some rest) =>
      if is_alpha c0 && all_chars is_scheme_char (String c0 pre)
      then (PyStr.lower (String c0 pre), rest)
      else (EmptyString, url)
  | _ => (EmptyString, url)
  end.

Definition uses_params : list string :=
  [""; "ftp"; "hdl"; "prospero"; "http"; "imap"; "https"; "shttp"; "rtsp";
   "rtspu"; "sip"; "sips"; "mms"; "sftp"; "tel"].

(** [_splitparams]: the parameters after the first ";" of the last path
    segment. *)
Definition splitparams (url : string) : string * string :=
  if PyStr.contains "/" url then
    match PyStr.split1 "/" (String.rev url) with
    | (last_rev, Some pre_rev) =>
        let last := String "/" (String.rev last_rev) in
        match PyStr.split1 ";" last with
        | (a, Some b) => ((String.rev pre_rev ++ a)%string, b)
        | (_, None) => (url, EmptyString)
        end
    | (_, None) => (url, EmptyString)
    end
  else
    match PyStr.split1 ";" url with
    | (a, Some b) => (a, b)
    | (a, None) => (a, EmptyString)
    end.

(** [urlparse(url)] of CPython's urllib.parse (3.12) on ASCII text. The
    check of the text between "[" and "]" against the IPv6 grammar, which
    recent versions add, is not part of this model. *)
Definition urlparse (url0 : string) : result ParseResult :=
  let url := filter_chars (fun c => negb (is_unsafe c)) (lstrip_c0 url0) in
  let '(sch, url) := split_scheme url in
  let '(loc, url) :=
    match url with
    | String "/" (String "/" rest) => splitnetloc rest
    | _ => (EmptyString, url)
    end in
  if xorb (PyStr.contains "[" loc) (PyStr.contains "]" loc)
  then Raise (ValueError "Invalid IPv6 URL")
  else
    let '(url, frag) :=
      match PyStr.split1 "#" url with
      | (a, Some b) => (a, b)
      | (a, None) => (a, EmptyString)
      end in
    let '(url, qry) :=
      match PyStr.split1 "?" url with
      | (a, Some b) => (a, b)
      | (a, None) => (a, EmptyString)
      end in
    let '(url, prm) :=
      if bool_decide (sch ∈ uses_params) && PyStr.contains ";" url
      then splitparams url else (url, EmptyString) in
    Ret (mkParseResult sch loc url prm qry frag).

End UrlParse.

(** ** Python values, responses and events *)

(** The values of decoded JSON and of row fields. Non-integral JSON numbers
    are outside the model. A dict is the list of its items in insertion
    order, with distinct keys. *)
#[warnings="-register-all"]
Inductive value : Type :=
| VNone
| VBool (b : bool)
| VInt (n : Z)
| VStr (s : string)
| VList (l : list value)
| VDict (d : list (string * value)).

(** A row of the output: [Dict[str, Any]]. *)
Definition row : Type := list (string * value).

(** [requests.Response]: the fields and methods the program reads.
    [json] is what [resp.json()] returns or raises. *)
Record Response : Type := mkResponse {
  status_code : Z;
  text : string;
  json : result value
}.

(** What a run does to the outside world, in order. [EvCallGet] and
    [EvSeenAdd] are ghost events: they mark the entry into [Fetcher.get]
    and the execution of [seen_urls.add(url)]. *)
Inductive event : Type :=
| EvSleep (delay : Q)             (* time.sleep(delay), line 64 *)
| EvJitter                        (* self._sleep_jitter(), line 65 *)
| EvSessionGet (url : string)     (* self.session.get(url, ...), line 68 *)
| EvRequestsGet (url : string)    (* requests.get(robots_url, ...), line 94 *)
| EvPrint (msg : string)          (* print(...) *)
| EvCallGet (url : string)
| EvSeenAdd (url : string).

(** The two ways the program sends a GET request. *)
Inductive channel : Type := ViaSession | ViaRequests.

(** What the network does with one request. *)
Inductive answer : Type :=
| Answers (r : Response)
| TimesOut
| Refuses
| Breaks.        (* any other exception of the requests library *)

(** ** The effect monad

    A computation starts at a request count and yields its result (or the
    exception raised), the new count and the events it produced. *)
Definition M (A : Type) : Type := nat -> result A * nat * list event.

Definition ret {A} (a : A) : M A := fun t => (Ret a, t, []).
Definition raise {A} (e : exn) : M A := fun t => (Raise e, t, []).
Definition lift {A} (r : result A) : M A := fun t => (r, t, []).
Definition emit (e : event) : M unit := fun t => (Ret tt, t, [e]).

Definition bind {A B} (m : M A) (k : A -> M B) : M B := fun t =>
  match m t with
  | (Ret a, t1, ev1) => let '(r, t2, ev2) := k a t1 in (r, t2, ev1 ++ ev2)
  | (Raise e, t1, ev1) => (Raise e, t1, ev1)
  end.

(** [try: m  except <classes h answers for> as e: h e]; an exception for
    which [h] gives [None] is not caught. *)
Definition try_except {A} (m : M A) (h : exn -> option (M A)) : M A := fun t =>
  match m t with
  | (Ret a, t1, ev1) => (Ret a, t1, ev1)
  | (Raise e, t1, ev1) =>
      match h e with
      | Some k => let '(r, t2, ev2) := k t1 in (r, t2, ev1 ++ ev2)
      | None => (Raise e, t1, ev1)
      end
  end.

Notation "x <- m ;; k" := (bind m (fun x => k))
  (at level 100, m at next level, right associativity).
Notation "m ;;; k" := (bind m (fun _ => k))
  (at level 100, right associativity).

Definition outcome {A} (x : result A * nat * list event) : result A := x.1.1.
Definition clock {A} (x : result A * nat * list event) : nat := x.1.2.
Definition events {A} (x : result A * nat * list event) : list event := x.2.

(** ** Fetcher

    The delays are Python floats. A finite float is the rational it
    denotes, so the fields of a fetcher are rationals; what the runtime
    computes with them (the random draw of the jitter, the rounded power
    of the backoff, the longest sleep the platform accepts) is taken as
    given, in a [Runtime]. A draw that is not finite makes [time.sleep]
    raise [OverflowError] (infinity) or [ValueError] (not a number): a
    runtime stands for it by a length that is too long, or negative.
    A sleep that succeeds is recorded as an event. *)

Record Runtime : Type := mkRuntime {
  (** [random.uniform(a, b)], drawn when [t] requests have been sent *)
  uniform : nat -> Q -> Q -> Q;
  (** whether [time.sleep] rejects a non-negative duration as too large *)
  too_long : Q -> bool;
  (** [x ** n] in floating point: the rounded power, or [None] when it
      overflows *)
  float_pow : Q -> Z -> option Q
}.

(** [time.sleep(d)], with the event that records the sleep. *)
Definition time_sleep (rt : Runtime) (d : Q) (ev : event) : M unit :=
  if negb (Qle_bool 0 d)
  then raise (ValueError "sleep length must be non-negative")
  else if too_long rt d
       then raise (OverflowError "timestamp too large to convert to C _PyTime_t")
       else emit ev.

(** The exceptions of [time.sleep] and of the backoff power. *)
Definition sleep_error (e : exn) : bool :=
  match e with
  | ValueError _ | OverflowError _ => true
  | _ => false
  end.

Record Fetcher : Type := mkFetcher {
  timeout : Z;
  min_delay : Q;
  max_delay : Q;
  max_retries : Z;
  backoff_factor : Q
}.

(** The doubles that the literals [1.7] and [0.8] denote; [0.75], [1.75]
    and [2.0] are exact. *)
Definition float_1_7 : Q := 7656119366529843 # 4503599627370496.
Definition float_0_8 : Q := 3602879701896397 # 4503599627370496.

(** [Fetcher()] with the defaults of [__init__]. *)
Definition default_fetcher : Fetcher :=
  mkFetcher 30 (3 # 4) (7 # 4) 4 float_1_7.

(** [range(a, b)] *)
Definition py_range (a b : Z) : list Z :=
  map (fun i => a + Z.of_nat i) (seq 0 (Z.to_nat (b - a))).

(** [resp.status_code in (429, 500, 502, 503, 504)] *)
Definition transient_status (c : Z) : bool :=
  bool_decide (c ∈ [429; 500; 502; 503; 504]).

(** [resp.raise_for_status()]: [HTTPError] for the 4xx and 5xx codes. *)
Definition raise_for_status (resp : Response) : result unit :=
  if (400 <=? status_code resp) && (status_code resp <? 600)
  then Raise (HTTPError (status_code resp) false)
  else Ret tt.

(** The exceptions of [except (requests.Timeout, requests.ConnectionError,
    requests.HTTPError)]. *)
Definition caught (e : exn) : bool :=
  match e with
  | Timeout | ConnectionError | HTTPError _ _ => true
  | _ => false
  end.

Section Network.

Variable rt : Runtime.

(** The network: the answer to the request number [t] on a channel. *)
Variable net : nat -> channel -> string -> answer.

Definition request (ch : channel) (url : string) : M Response := fun t =>
  let ev := match ch with
            | ViaSession => EvSessionGet url
            | ViaRequests => EvRequestsGet url
            end in
  match net t ch url with
  | Answers r => (Ret r, S t, [ev])
  | TimesOut => (Raise Timeout, S t, [ev])
  | Refuses => (Raise ConnectionError, S t, [ev])
  | Breaks => (Raise RequestException, S t, [ev])
  end.

(** The body of the [try] of [Fetcher.get], lines 68-73. *)
Definition attempt_once (url : string) : M Response :=
  resp <- request ViaSession url ;;
  if transient_status (status_code resp)
  then raise (HTTPError (status_code resp) true)
  else lift (raise_for_status resp) ;;; ret resp.

(** [self._sleep_jitter()] *)
Definition sleep_jitter (self : Fetcher) : M unit := fun t =>
  time_sleep rt (uniform rt t (min_delay self) (max_delay self)) EvJitter t.

(** [max(0.5, self.backoff_factor ** (attempt - 1))] *)
Definition next_delay (self : Fetcher) (attempt : Z) : result Q :=
  match float_pow rt (backoff_factor self) (attempt - 1) with
  | Some p => Ret (Qmax (1 # 2) p)
  | None => Raise (OverflowError "(34, 'Numerical result out of range')")
  end.

(** Lines 63-65: the backoff sleep, when [delay] is not zero, and the
    jitter sleep. *)
Definition before_attempt (self : Fetcher) (delay : Q) : M unit :=
  (if Qeq_bool delay 0 then ret tt else time_sleep rt delay (EvSleep delay)) ;;;
  sleep_jitter self.

(** The [for attempt in range(1, self.max_retries + 1)] loop over the
    attempts left, with the current [delay]; the statement after the loop
    is reached when no attempt is left. *)
Fixpoint get_attempts (self : Fetcher) (url : string)
    (attempts : list Z) (delay : Q) : M Response :=
  match attempts with
  | [] => raise (RuntimeError "Unreachable")
  | attempt :: rest =>
      before_attempt self delay ;;;
      try_except (attempt_once url) (fun e =>
        if caught e then
          Some (if attempt =? max_retries self then raise e
                else delay' <- lift (next_delay self attempt) ;;
                     get_attempts self url rest delay')
        else None)
  end.

(** [Fetcher.get(self, url)] *)
Definition get (self : Fetcher) (url : string) : M Response :=
  emit (EvCallGet url) ;;;
  get_attempts self url (py_range 1 (max_retries self + 1)) 0.

End Network.

(** The requests a run sent through the session. *)
Definition session_gets (evs : list event) : list string :=
  omap (fun e => match e with EvSessionGet u => Some u | _ => None end) evs.

Definition plain_response (code : Z) : Response :=
  mkResponse code "" (Raise JSONDecodeError).

(** A server that answers every request with the same status. *)
Definition always (code : Z) : nat -> channel -> string -> answer :=
  fun _ _ _ => Answers (plain_response code).


(** A runtime for the examples: the jitter draws its lower bound, no sleep
    is too long, and powers are exact. The floating-point power rounds
    where this one does not, so the examples evaluated with it say nothing
    of the lengths of the backoff sleeps; what is proved of those lengths
    is proved for every runtime. *)
Definition steady : Runtime :=
  mkRuntime (fun _ a _ => a) (fun _ => false) (fun x n => Some (Qpower x n)).


Notation "'let?' x := m 'in' k" := (rbind m (fun x => k))
  (at level 10, x name, m at level 100, k at level 200, only parsing).

(** ** robots_allows *)

(** [line.split(":", 1)[1]]: the text after the first colon; indexing
    fails when there is none. *)
Definition after_colon (line : string) : result string :=
  match PyStr.split1 ":" line with
  | (_, Some rest) => Ret rest
  | (_, None) => Raise (IndexError "list index out of range")
  end.

(** One turn of the loop over the lines (lines 100-109) on the pair
    [(ua_block, disallows)]. *)
Definition robots_line (user_agent : string) (st : bool * list string)
    (line0 : string) : result (bool * list string) :=
  let '(ua_block, disallows) := st in
  let line := PyStr.strip line0 in
  if negb (PyStr.truthy line) || PyStr.startswith line "#" then Ret st
  else if PyStr.startswith (PyStr.lower line) "user-agent:" then
    let? rest := after_colon line in
    let ua := PyStr.strip rest in
    Ret (PyStr.eqb ua "" || PyStr.eqb (PyStr.lower ua) (PyStr.lower user_agent),
         disallows)
  else if ua_block && PyStr.startswith (PyStr.lower line) "disallow:" then
    let? rest := after_colon line in
    Ret (ua_block, disallows ++ [PyStr.strip rest])
  else Ret st.

Fixpoint robots_lines (user_agent : string) (st : bool * list string)
    (lines : list string) : result (bool * list string) :=
  match lines with
  | [] => Ret st
  | line :: rest =>
      let? st' := robots_line user_agent st line in
      robots_lines user_agent st' rest
  end.

(** The loop over the collected prefixes (lines 112-117), as the value
    returned. *)
Definition path_allowed (path : string) (disallows : list string) : bool :=
  negb (existsb (fun d => PyStr.truthy d && PyStr.startswith path d) disallows).

(** The statements of the [try] after the request (lines 95-117). *)
Definition robots_decide (parsed : ParseResult) (user_agent : string)
    (r : Response) : result bool :=
  if negb (status_code r =? 200) then Ret true
  else
    let? st := robots_lines user_agent (false, []) (PyStr.splitlines (text r)) in
    let path := if PyStr.truthy (path parsed) then path parsed else "/" in
    Ret (path_allowed path st.2).

Definition robots_url (parsed : ParseResult) : string :=
  (scheme parsed ++ "://" ++ netloc parsed ++ "/robots.txt")%string.

Section Robots.

Variable urlparse : string -> result ParseResult.
Variable net : nat -> channel -> string -> answer.

(** [robots_allows(url, user_agent)]; the default [user_agent] is [""]. *)
Definition robots_allows (url : string) (user_agent : string) : M bool :=
  parsed <- lift (urlparse url) ;;
  try_except
    (r <- request net ViaRequests (robots_url parsed) ;;
     lift (robots_decide parsed user_agent r))
    (fun _ => Some (ret true)).

(** The verdict of [robots_allows] once the URL is parsed: [True] for whatever goes wrong inside the [try]. *)
Definition robots_verdict (parsed : ParseResult) (user_agent : string)
    (t : nat) : bool :=
  match net t ViaRequests (robots_url parsed) with
  | Answers r =>
      match robots_decide parsed user_agent r with
      | Ret b => b
      | Raise _ => true
      end
  | _ => true
  end.

End Robots.

(** ** parse_example_json *)

Fixpoint dict_lookup (k : string) (d : list (string * value)) : option value :=
  match d with
  | [] => None
  | (k', v) :: d' => if String.eqb k' k then Some v else dict_lookup k d'
  end.

(** [v.get(k, default)]: only a dict has the method. *)
Definition get_method (v : value) (k : string) (dflt : value) : result value :=
  match v with
  | VDict d => Ret (default dflt (dict_lookup k d))
  | _ => Raise (AttributeError "get")
  end.

(** The items a [for] loop over [v] visits: the elements of a list, the
    keys of a dict, the characters of a string. *)
Definition iterate (v : value) : result (list value) :=
  match v with
  | VList l => Ret l
  | VDict d => Ret (map (fun kv => VStr kv.1) d)
  | VStr s => Ret (map (fun c => VStr (String c EmptyString)) (list_ascii_of_string s))
  | _ => Raise (TypeError "object is not iterable")
  end.

Definition json_row (base_url : string) (it : value) : result row :=
  let? id := get_method it "id" VNone in
  let? name := get_method it "name" VNone in
  let? val := get_method it "value" VNone in
  Ret [("id", id); ("name", name); ("value", val); ("source", VStr base_url)].

(** [parse_example_json(resp, base_url)] *)
Definition parse_example_json (resp : Response) (base_url : string)
    : result (list row) :=
  let? data := json resp in
  let? items := get_method data "items"
                  (match data with VList _ => data | _ => VList [] end) in
  let? its := iterate items in
  rmap (json_row base_url) its.

(** ** parse_example_html *)

(** The parsed document: text nodes and tags with their attributes. *)
#[warnings="-register-all"]
Inductive node : Type :=
| Text (s : string)
| Elem (name : string) (attrs : list (string * string)) (children : list node).

Module Soup.

Fixpoint attr_lookup (k : string) (attrs : list (string * string)) : option string :=
  match attrs with
  | [] => None
  | (k', v) :: rest => if String.eqb k' k then Some v else attr_lookup k rest
  end.

(** [tag.get(k)] *)
Definition attr (k : string) (n : node) : option string :=
  match n with
  | Elem _ attrs _ => attr_lookup k attrs
  | Text _ => None
  end.

(** The whitespace-separated words of an attribute value. *)
Fixpoint words_upto (n : nat) (cur : string) (s : string) : list string :=
  match s with
  | EmptyString => match cur with EmptyString => [] | _ => [String.rev cur] end
  | String c s' =>
      match n with
      | O => [String.rev cur]
      | S n' =>
          match PyStr.skip_space s with
          | Some rest =>
              match cur with
              | EmptyString => words_upto n' EmptyString rest
              | _ => String.rev cur :: words_upto n' EmptyString rest
              end
          | None => words_upto n' (String c cur) s'
          end
      end
  end.

Definition words_from (cur : string) (s : string) : list string :=
  words_upto (String.length s) cur s.

Definition classes (n : node) : list string :=
  match attr "class" n with
  | Some v => words_from EmptyString v
  | None => []
  end.

(** Simple selectors: [name], [.cls], their conjunction [name.cls] and the
    comma of a selector list. *)
Definition tag (name : string) (n : node) : bool :=
  match n with
  | Elem name' _ _ => String.eqb name' name
  | Text _ => false
  end.

Definition cls (c : string) (n : node) : bool :=
  match n with
  | Elem _ _ _ => existsb (String.eqb c) (classes n)
  | Text _ => false
  end.

Definition both (p q : node -> bool) (n : node) : bool := p n && q n.
Definition either (p q : node -> bool) (n : node) : bool := p n || q n.

(** [tag.descendants]: every node below [n], in document order. *)
Fixpoint descendants (n : node) : list node :=
  match n with
  | Text _ => []
  | Elem _ _ children =>
      (fix below (cs : list node) : list node :=
         match cs with
         | [] => []
         | c :: cs' => c :: descendants c ++ below cs'
         end) children
  end.

(** [tag.select(sel)] and [tag.select_one(sel)] *)
Definition select (sel : node -> bool) (n : node) : list node :=
  filter (fun d => sel d = true) (descendants n).

Definition select_one (sel : node -> bool) (n : node) : option node :=
  head (select sel n).

(** [tag.get_text(strip=True)]: the stripped, non-empty strings below the
    tag, joined. *)
Definition get_text_strip (n : node) : string :=
  foldr (fun d acc =>
           match d with
           | Text s => (PyStr.strip s ++ acc)%string
           | Elem _ _ _ => acc
           end) EmptyString (descendants n).

End Soup.

(** The four selector lists of the source. *)
Definition sel_card : node -> bool :=
  Soup.either (Soup.cls "card") (Soup.either (Soup.cls "item") (Soup.tag "article")).
Definition sel_title : node -> bool :=
  Soup.either (Soup.both (Soup.tag "h2") (Soup.cls "title"))
    (Soup.either (Soup.tag "h2") (Soup.cls "title")).
Definition sel_link : node -> bool :=
  Soup.either (Soup.both (Soup.tag "a") (Soup.cls "detail-link")) (Soup.tag "a").
Definition sel_price : node -> bool :=
  Soup.either (Soup.cls "price") (Soup.cls "amount").

(** Truthiness of [str | None]. *)
Definition truthy_opt (o : option string) : bool :=
  match o with Some s => PyStr.truthy s | None => false end.

Definition value_of (o : option string) : value :=
  match o with Some s => VStr s | None => VNone end.

Section Html.

(** [urllib.parse.urljoin] and [BeautifulSoup(text, "lxml")] are taken as
    given. *)
Variable urljoin : string -> string -> result string.
Variable BeautifulSoup : string -> node.

(** The three values read from one card (lines 139-145). *)
Definition card_title (card : node) : option string :=
  Soup.get_text_strip <$> Soup.select_one sel_title card.

Definition card_href (base_url : string) (card : node) : result (option string) :=
  match Soup.select_one sel_link card with
  | Some link_el =>
      match Soup.attr "href" link_el with
      | Some h =>
          if PyStr.truthy h
          then let? u := urljoin base_url h in Ret (Some u)
          else Ret None
      | None => Ret None
      end
  | None => Ret None
  end.

Definition card_price (card : node) : option string :=
  Soup.get_text_strip <$> Soup.select_one sel_price card.

(** The body of the loop over the cards: the rows it appends (none or one). *)
Definition card_rows (base_url : string) (card : node) : result (list row) :=
  let title := card_title card in
  let? href := card_href base_url card in
  let price := card_price card in
  if truthy_opt title || truthy_opt href || truthy_opt price
  then Ret [[("title", value_of title); ("url", value_of href);
             ("price", value_of price); ("source", VStr base_url)]]
  else Ret [].

Definition parse_soup (soup : node) (base_url : string) : result (list row) :=
  let? rows := rmap (card_rows base_url) (Soup.select sel_card soup) in
  Ret (concat rows).

(** [parse_example_html(resp, base_url)] *)
Definition parse_example_html (resp : Response) (base_url : string)
    : result (list row) :=
  parse_soup (BeautifulSoup (text resp)) base_url.

End Html.

(** ** mine_target *)

Record Target : Type := mkTarget {
  name : string;
  mode : string;
  start_urls : list string;
  parser : Response -> string -> result (list row);
  discover_next_urls : option (Response -> string -> result (list string))
}.

(** The three local variables of [mine_target] that the loop updates. *)
Record Frontier : Type := mkFrontier {
  queue : list string;
  seen_urls : gset string;
  collected : list row
}.

Section Orchestrator.

Variable urlparse : string -> result ParseResult.
Variable rt : Runtime.
Variable net : nat -> channel -> string -> answer.
Variable fetcher : Fetcher.
Variable target : Target.
Variable max_pages : Z.
Variable respect_robots : bool.

(** [queue and len(seen_urls) < max_pages] *)
Definition loop_cond (st : Frontier) : bool :=
  match queue st with
  | [] => false
  | _ :: _ => Z.of_nat (size (seen_urls st)) <? max_pages
  end.

(** [f"{urlparse(url).scheme}://{urlparse(url).netloc}"] *)
Definition base_url_of (url : string) : result string :=
  let? p1 := urlparse url in
  let? p2 := urlparse url in
  Ret (scheme p1 ++ "://" ++ netloc p2)%string.

Definition skipping_msg (url : string) : string :=
  ("[" ++ name target ++ "] Skipping (robots): " ++ url)%string.

Definition fetching_msg (url : string) : string :=
  ("[" ++ name target ++ "] Fetching: " ++ url)%string.

(** [respect_robots and not robots_allows(url)]: the check runs only when
    [respect_robots] holds. *)
Definition robots_denies (url : string) : M bool :=
  if respect_robots
  then allowed <- robots_allows urlparse net url "" ;; ret (negb allowed)
  else ret false.

(** Lines 217-228: fetch, parse, collect, discover. *)
Definition fetch_and_extract (url : string) (q : list string)
    (seen : gset string) (rows : list row) : M Frontier :=
  emit (EvPrint (fetching_msg url)) ;;;
  resp <- get rt net fetcher url ;;
  base_url <- lift (base_url_of url) ;;
  items <- lift (parser target resp base_url) ;;
  match discover_next_urls target with
  | Some discover =>
      next_urls <- lift (discover resp base_url) ;;
      ret (mkFrontier (q ++ filter (fun nu => nu ∉ seen) next_urls) seen
             (rows ++ items))
  | None => ret (mkFrontier q seen (rows ++ items))
  end.

(** One turn of the [while] loop (lines 208-228). *)
Definition mine_iteration (st : Frontier) : M Frontier :=
  match queue st with
  | [] => raise (IndexError "pop from empty list")
  | url :: q =>
      if bool_decide (url ∈ seen_urls st)
      then ret (mkFrontier q (seen_urls st) (collected st))
      else
        emit (EvSeenAdd url) ;;;
        let seen := {[url]} ∪ seen_urls st in
        denied <- robots_denies url ;;
        if denied : bool
        then emit (EvPrint (skipping_msg url)) ;;;
             ret (mkFrontier q seen (collected st))
        else fetch_and_extract url q seen (collected st)
  end.

(** The [while] loop with a bound on the number of turns: [None] when the
    bound ran out before the loop ended, the final variables otherwise. *)
Fixpoint mine_loop (fuel : nat) (st : Frontier) : M (option Frontier) :=
  if loop_cond st then
    match fuel with
    | O => ret None
    | S fuel' => st' <- mine_iteration st ;; mine_loop fuel' st'
    end
  else ret (Some st).

Definition initial : Frontier := mkFrontier (start_urls target) ∅ [].

(** [mine_target(fetcher, target, max_pages, respect_robots)] *)
Definition mine_target (fuel : nat) : M (option (list row)) :=
  st <- mine_loop fuel initial ;; ret (collected <$> st).

End Orchestrator.

(** The URLs a run added to [seen_urls] and the URLs it called
    [Fetcher.get] with, in order. *)
Definition seen_adds (evs : list event) : list string :=
  omap (fun e => match e with EvSeenAdd u => Some u | _ => None end) evs.

Definition get_calls (evs : list event) : list string :=
  omap (fun e => match e with EvCallGet u => Some u | _ => None end) evs.

(** ** Concrete servers and documents used in the examples *)

Definition nl : string := String "010" EmptyString.

(** A server whose robots.txt has the given body; any page is an empty 200. *)
Definition serves_robots (body : string) : nat -> channel -> string -> answer :=
  fun _ ch _ =>
    match ch with
    | ViaRequests => Answers (mkResponse 200 body (Raise JSONDecodeError))
    | ViaSession => Answers (plain_response 200)
    end.

Definition robots_star : string :=
  ("User-agent: *" ++ nl ++ "Disallow: /private")%string.

Definition robots_blank : string :=
  ("User-agent:" ++ nl ++ "Disallow: /private")%string.

(** A body in which no line is a [Disallow] directive. *)
Definition no_disallow_line (body : string) : Prop :=
  Forall (fun line =>
            PyStr.startswith (PyStr.lower (PyStr.strip line)) "disallow:" = false)
         (PyStr.splitlines body).

(** A response whose body decodes to the JSON value [v]. *)
Definition json_response (v : value) : Response := mkResponse 200 "" (Ret v).

(** [urljoin] on a base without path and a reference that starts with "/",
    the only case the examples use. *)
Definition join_root (base_url ref : string) : result string :=
  Ret (base_url ++ ref)%string.

Definition document (children : list node) : node :=
  Elem "[document]" [] children.

(** <div class="card"><h2 class="title">Widget</h2></div> *)
Definition card_with_title : node :=
  Elem "div" [("class", "card")] [Elem "h2" [("class", "title")] [Text "Widget"]].

(** <div class="card"><h2 class="title"></h2></div> *)
Definition card_with_empty_title : node :=
  Elem "div" [("class", "card")] [Elem "h2" [("class", "title")] []].

(** <div class="card"><p>nothing</p></div> *)
Definition card_without_fields : node :=
  Elem "div" [("class", "card")] [Elem "p" [] [Text "nothing"]].

(** <article><h2> Gadget </h2><a class="detail-link" href="/p/1">more</a>
    <span class="price">9</span></article> *)
Definition card_complete : node :=
  Elem "article" []
    [Elem "h2" [] [Text " Gadget "];
     Elem "a" [("class", "detail-link"); ("href", "/p/1")] [Text "more"];
     Elem "span" [("class", "price")] [Text "9"]].

Definition row_keys (r : row) : list string := map fst r.

(** What it means for a card to have one of its three fields: a title or
    price element with text, a link whose [href] joins to a URL. *)
Definition found_title (card : node) : Prop :=
  exists el, Soup.select_one sel_title card = Some el /\ Soup.get_text_strip el <> "".

Definition found_price (card : node) : Prop :=
  exists el, Soup.select_one sel_price card = Some el /\ Soup.get_text_strip el <> "".

Definition found_link (urljoin : string -> string -> result string)
    (base_url : string) (card : node) : Prop :=
  exists el h u,
    Soup.select_one sel_link card = Some el /\ Soup.attr "href" el = Some h /\
    h <> "" /\ urljoin base_url h = Ret u /\ u <> "".

Section Turns.

Variable urlparse : string -> result ParseResult.
Variable rt : Runtime.
Variable net : nat -> channel -> string -> answer.
Variable fetcher : Fetcher.
Variable target : Target.
Variable max_pages : Z.
Variable respect_robots : bool.

(** The variables, request count and events after [k] turns of the loop
    that all ended normally; [None] when the loop ends or raises before. *)
Fixpoint iterations (k : nat) (st : Frontier) (t : nat)
    : option (Frontier * nat * list event) :=
  match k with
  | O => Some (st, t, [])
  | S k' =>
      if loop_cond max_pages st then
        match mine_iteration urlparse rt net fetcher target respect_robots st t with
        | (Ret st', t', ev) =>
            match iterations k' st' t' with
            | Some (st'', t'', ev') => Some (st'', t'', ev ++ ev')
            | None => None
            end
        | (Raise _, _, _) => None
        end
      else None
  end.

End Turns.

(** A site whose robots.txt is missing and whose every page answers 200
    with its own URL as text. *)
Definition echo_site : nat -> channel -> string -> answer :=
  fun _ ch url =>
    match ch with
    | ViaRequests => Answers (plain_response 404)
    | ViaSession => Answers (mkResponse 200 url (Raise JSONDecodeError))
    end.

(** The same site, except that only [https://h/p] exists. *)
Definition one_page_site : nat -> channel -> string -> answer :=
  fun _ ch url =>
    match ch with
    | ViaRequests => Answers (plain_response 404)
    | ViaSession =>
        if String.eqb url "https://h/p"
        then Answers (mkResponse 200 url (Raise JSONDecodeError))
        else Answers (plain_response 404)
    end.

(** A target with one row per page, and on every page a link to a page
    never seen before. *)
Definition endless_target : Target :=
  mkTarget "endless" "html" ["https://h/p"]
    (fun resp _ => Ret [[("page", VStr (text resp))]])
    (Some (fun resp _ => Ret [(text resp ++ "x")%string])).

(** A target that starts with a page under [/private], twice, and a public
    one, without discovery. *)
Definition two_page_target : Target :=
  mkTarget "two" "html" ["https://h/private/x"; "https://h/private/x"; "https://h/public"]
    (fun resp _ => Ret [[("status", VInt (status_code resp))]])
    None.

(** ** Further projections of a run's events *)

(** The backoff sleeps, the jitter sleeps and the requests for robots.txt. *)
Definition sleeps (evs : list event) : list Q :=
  omap (fun e => match e with EvSleep d => Some d | _ => None end) evs.

Definition jitters (evs : list event) : list unit :=
  omap (fun e => match e with EvJitter => Some tt | _ => None end) evs.

Definition requests_gets (evs : list event) : list string :=
  omap (fun e => match e with EvRequestsGet u => Some u | _ => None end) evs.

(** A server that fails with 503 for the first [k] requests and answers
    200 from then on. *)
Definition flaky (k : nat) : nat -> channel -> string -> answer :=
  fun t _ _ =>
    if (t <? k)%nat then Answers (plain_response 503)
    else Answers (plain_response 200).

(** A network that breaks every request with an exception outside the
    three caught classes. *)
Definition broken : nat -> channel -> string -> answer :=
  fun _ _ _ => Breaks.

(** ** Further notions for robots.txt and the JSON parser *)

(** [line] is a [User-agent] line (after stripping: not blank, not a
    comment) whose value is blank or equals [user_agent] up to case. *)
Definition agent_line_matches (user_agent line0 : string) : bool :=
  let line := PyStr.strip line0 in
  PyStr.truthy line && negb (PyStr.startswith line "#")
  && PyStr.startswith (PyStr.lower line) "user-agent:"
  && match after_colon line with
     | Ret rest =>
         let ua := PyStr.strip rest in
         PyStr.eqb ua "" || PyStr.eqb (PyStr.lower ua) (PyStr.lower user_agent)
     | Raise _ => false
     end.

(** The row that [parse_example_json] builds from an item with the given
    fields. *)
Definition item_row (base_url : string) (fields : list (string * value)) : row :=
  [("id", default VNone (dict_lookup "id" fields));
   ("name", default VNone (dict_lookup "name" fields));
   ("value", default VNone (dict_lookup "value" fields));
   ("source", VStr base_url)].

Definition is_dict (v : value) : bool :=
  match v with VDict _ => true | _ => false end.

(** robots.txt with a block for another agent only. *)
Definition robots_other_agent : string :=
  ("User-agent: Googlebot" ++ nl ++ "Disallow: /")%string.

(** ** discover_next_example_html *)

(** Selectors that also look at the ancestors of the element (nearest
    first), for the descendant combinator of [.pagination a.next]. *)
Module Css.

Definition selector : Type := list node -> node -> bool.

Definition simple (p : node -> bool) : selector := fun _ n => p n.

(** [p q]: an element matching [q] below an element matching [p]. *)
Definition inside (p : node -> bool) (q : node -> bool) : selector :=
  fun anc n => q n && existsb p anc.

Definition either (s1 s2 : selector) : selector :=
  fun anc n => s1 anc n || s2 anc n.

(** [[k='v']]. The value of a multi-valued attribute such as [rel] is the
    list of its words, which the match joins with single spaces. *)
Definition attr_is_word (k v : string) (n : node) : bool :=
  match Soup.attr k n with
  | Some a => bool_decide (Soup.words_from EmptyString a = [v])
  | None => false
  end.

(** Every node below [n] with its ancestors, in document order. *)
Fixpoint descendants (anc : list node) (n : node) : list (list node * node) :=
  match n with
  | Text _ => []
  | Elem _ _ children =>
      (fix below (cs : list node) : list (list node * node) :=
         match cs with
         | [] => []
         | c :: cs' => (n :: anc, c) :: descendants (n :: anc) c ++ below cs'
         end) children
  end.

Definition select_one (sel : selector) (root : node) : option node :=
  snd <$> head (filter (fun p => sel p.1 p.2 = true) (descendants [] root)).

End Css.

(** [a[rel='next'], a.next, .pagination a.next] *)
Definition sel_next : Css.selector :=
  Css.either
    (Css.simple (Soup.both (Soup.tag "a") (Css.attr_is_word "rel" "next")))
    (Css.either
       (Css.simple (Soup.both (Soup.tag "a") (Soup.cls "next")))
       (Css.inside (Soup.cls "pagination") (Soup.both (Soup.tag "a") (Soup.cls "next")))).

(** The same elements, without looking at the ancestors. *)
Definition sel_next_link : node -> bool :=
  Soup.both (Soup.tag "a")
    (Soup.either (Css.attr_is_word "rel" "next") (Soup.cls "next")).

Section Discover.

Variable urljoin : string -> string -> result string.
Variable BeautifulSoup : string -> node.

(** [discover_next_example_html(resp, base_url)] *)
Definition discover_next_example_html (resp : Response) (base_url : string)
    : result (list string) :=
  match Css.select_one sel_next (BeautifulSoup (text resp)) with
  | Some next_link =>
      match Soup.attr "href" next_link with
      | Some h =>
          if PyStr.truthy h
          then let? u := urljoin base_url h in Ret [u]
          else Ret []
      | None => Ret []
      end
  | None => Ret []
  end.

End Discover.

(** <div class="pagination"><a href="/p/1">1</a>
    <a class="next" href="/p/2">next</a></div><a rel="next" href="/p/9">n</a> *)
Definition page_with_next : node :=
  document
    [Elem "div" [("class", "pagination")]
       [Elem "a" [("href", "/p/1")] [Text "1"];
        Elem "a" [("class", "next"); ("href", "/p/2")] [Text "next"]];
     Elem "a" [("rel", "next"); ("href", "/p/9")] [Text "n"]].

(** A row of the HTML parser: the four keys, and the base URL as source. *)
Definition well_formed_row (base_url : string) (r : row) : Prop :=
  row_keys r = ["title"; "url"; "price"; "source"] /\
  dict_lookup "source" r = Some (VStr base_url).

(** ** Further notions for the crawl loop *)

(** The URLs of [l] that are not in [seen], each at its first occurrence. *)
Fixpoint first_seen (seen : gset string) (l : list string) : list string :=
  match l with
  | [] => []
  | u :: l' =>
      if bool_decide (u ∈ seen) then first_seen seen l'
      else u :: first_seen ({[u]} ∪ seen) l'
  end.

(** A target with four start URLs, one of them repeated, and no discovery. *)
Definition list_target : Target :=
  mkTarget "list" "html"
    ["https://h/a"; "https://h/b"; "https://h/a"; "https://h/c"]
    (fun resp _ => Ret [[("page", VStr (text resp))]])
    None.

(** ** write_csv, write_json and main

    Writing a file is modelled by the data handed to the writer: the rows
    for [json.dump], the header and the lines of cells for
    [csv.DictWriter]. The text the two libraries make of them is not part
    of the model; whether the writing succeeds is taken as given. *)

(** [sorted({k for r in rows for k in r.keys()})]: the keys of all rows,
    each once, in lexicographic order. *)
Definition csv_keys (rows : list row) : list string :=
  merge_sort String.le (remove_dups (concat (map row_keys rows))).

(** The cells of one row under the header [keys]: [rowdict.get(key, "")]. *)
Definition csv_line (keys : list string) (r : row) : list value :=
  map (fun k => default (VStr "") (dict_lookup k r)) keys.

(** [write_csv(path, rows)]: nothing is written for an empty list;
    otherwise the header, then one line per row. *)
Definition write_csv (rows : list row) : option (list string * list (list value)) :=
  match rows with
  | [] => None
  | _ :: _ =>
      let keys := csv_keys rows in
      Some (keys, map (csv_line keys) rows)
  end.

(** [write_json(path, rows)]: the rows, in order, when [json.dump] into
    the opened file succeeds; [json_dump] tells whether it does (it raises
    for text that cannot be encoded and for a failing file system). *)
Definition write_json (json_dump : list row -> result unit) (rows : list row)
    : result (list row) :=
  let? _ := json_dump rows in Ret rows.

(** [write_csv(path, rows)] with the writing itself: no file is opened for
    an empty list; otherwise [csv_dump] tells whether the header and the
    lines could be written. *)
Definition write_csv_file
    (csv_dump : list string -> list (list value) -> result unit)
    (rows : list row) : result (option (list string * list (list value))) :=
  match write_csv rows with
  | None => Ret None
  | Some (keys, lines) => let? _ := csv_dump keys lines in Ret (Some (keys, lines))
  end.

(** What [main] leaves behind: mined_data.json and, when there are rows,
    mined_data.csv. *)
Record Output : Type := mkOutput {
  json_file : list row;
  csv_file : option (list string * list (list value))
}.

Section Main.

Variable urlparse : string -> result ParseResult.
Variable urljoin : string -> string -> result string.
Variable BeautifulSoup : string -> node.
Variable json_dump : list row -> result unit.
Variable csv_dump : list string -> list (list value) -> result unit.
Variable rt : Runtime.
Variable net : nat -> channel -> string -> answer.

(** The loop over the targets (lines 276-279), with the rows gathered so
    far; each crawl gets the same bound on its number of turns. *)
Fixpoint mine_all (fetcher : Fetcher) (max_pages : Z) (respect_robots : bool)
    (fuel : nat) (targets : list Target) (all_rows : list row)
    : M (option (list row)) :=
  match targets with
  | [] => ret (Some all_rows)
  | t :: rest =>
      rows <- mine_target urlparse rt net fetcher t max_pages respect_robots fuel ;;
      match rows with
      | Some rows => mine_all fetcher max_pages respect_robots fuel rest (all_rows ++ rows)
      | None => ret None
      end
  end.

(** The two targets of [main] and its fetcher. *)
Definition html_target : Target :=
  mkTarget "ExampleHTMLSite" "html" ["https://www.tesla.com"]
    (parse_example_html urljoin BeautifulSoup)
    (Some (discover_next_example_html urljoin BeautifulSoup)).

Definition json_target : Target :=
  mkTarget "ExampleJSONAPI" "json" ["https://example.com/api/items?page=1"]
    parse_example_json None.

Definition main_fetcher : Fetcher := mkFetcher 30 float_0_8 2 4 float_1_7.

Definition done_msg (rows : list row) : string :=
  ("Done. Collected " ++ pretty (length rows)
   ++ " records -> mined_data.json / mined_data.csv")%string.

(** [main()] *)
Definition main (fuel : nat) : M (option Output) :=
  all_rows <- mine_all main_fetcher 10 true fuel [html_target; json_target] [] ;;
  match all_rows with
  | Some all_rows =>
      written <- lift (write_json json_dump all_rows) ;;
      table <- lift (write_csv_file csv_dump all_rows) ;;
      emit (EvPrint (done_msg all_rows)) ;;;
      ret (Some (mkOutput written table))
  | None => ret None
  end.

End Main.

(** A site for [main]: no robots.txt, a product page with one card, and an
    API that answers with two items. *)
Definition demo_site : nat -> channel -> string -> answer :=
  fun _ ch url =>
    match ch with
    | ViaRequests => Answers (plain_response 404)
    | ViaSession =>
        if String.eqb url "https://www.tesla.com"
        then Answers (mkResponse 200 "<html>" (Raise JSONDecodeError))
        else Answers (json_response
               (VDict [("items", VList [VDict [("id", VInt 1); ("name", VStr "a")];
                                        VDict [("id", VInt 2)]])]))
    end.

(** The same site with the API down. *)
Definition demo_site_api_down : nat -> channel -> string -> answer :=
  fun _ ch url =>
    match ch with
    | ViaRequests => Answers (plain_response 404)
    | ViaSession =>
        if String.eqb url "https://www.tesla.com"
        then Answers (mkResponse 200 "<html>" (Raise JSONDecodeError))
        else Answers (plain_response 500)
    end.

Definition demo_soup : string -> node :=
  fun _ => document [card_complete].

(** File systems for the examples: one where every write succeeds, one
    where [json.dump] cannot encode a row. *)
Definition json_dump_ok : list row -> result unit := fun _ => Ret tt.
Definition csv_dump_ok : list string -> list (list value) -> result unit :=
  fun _ _ => Ret tt.
Definition json_dump_surrogate : list row -> result unit :=
  fun _ => Raise (UnicodeEncodeError "surrogates not allowed").

(** The sleeps of a call: with these conditions the jitter sleep before
    the request numbered [t], and the backoff sleep after the attempt
    numbered [attempt], do not raise. *)
Definition jitter_ok (rt : Runtime) (self : Fetcher) (t : nat) : Prop :=
  let d := uniform rt t (min_delay self) (max_delay self) in
  Qle_bool 0 d = true /\ too_long rt d = false.

Definition backoff_ok (rt : Runtime) (self : Fetcher) (attempt : Z) : Prop :=
  exists p, float_pow rt (backoff_factor self) (attempt - 1) = Some p /\
            too_long rt (Qmax (1 # 2) p) = false.

(** The events of sleeping. *)
Definition is_sleep (e : event) : bool :=
  match e with EvSleep _ | EvJitter => true | _ => false end.

(** The crawls of the loop over the targets, one after the other: the
    crawl of each target starts at the request count the crawl before it
    left, and returns its rows. *)
Fixpoint crawls_in_turn (crawl : Target -> M (option (list row)))
    (ts : list Target) (rowss : list (list row)) (t : nat) : Prop :=
  match ts, rowss with
  | [], [] => True
  | tg :: ts', rs :: rowss' =>
      outcome (crawl tg t) = Ret (Some rs) /\
      crawls_in_turn crawl ts' rowss' (clock (crawl tg t))
  | _, _ => False
  end.

(** The link of a card can be resolved: [urljoin] (line 144) returns for
    the [href] of the link element, when the card has one that is not
    empty. *)
Definition link_resolves (urljoin : string -> string -> result string)
    (base_url : string) (card : node) : Prop :=
  forall el h,
    Soup.select_one sel_link card = Some el -> Soup.attr "href" el = Some h ->
    h <> "" -> exists u, urljoin base_url h = Ret u.

(** [urljoin] as [join_root], with the [ValueError] that the parse of the
    reference raises for an opening bracket without its closing one. *)
Definition join_strict (base_url ref : string) : result string :=
  if String.eqb ref "http://[" then Raise (ValueError "Invalid IPv6 URL")
  else join_root base_url ref.

(** <div class="card"><h2 class="title">Widget</h2><a href="http://[">x</a></div> *)
Definition card_bad_link : node :=
  Elem "div" [("class", "card")]
    [Elem "h2" [("class", "title")] [Text "Widget"];
     Elem "a" [("href", "http://[")] [Text "x"]].

(** U+00A0, the no-break space, in UTF-8. *)
Definition nbsp : string := String "194" (String "160" EmptyString).

(** <div class="card"><span class="price">&nbsp;</span></div> *)
Definition card_nbsp_price : node :=
  Elem "div" [("class", "card")] [Elem "span" [("class", "price")] [Text nbsp]].
(** * Properties *)

Example splitlines_ex :
  PyStr.splitlines (String "a" (String "013" (String "010" (String "010" "b c"))))
  = ["a"; ""; "b c"].
Proof. reflexivity. Qed.

Example strip_ex : PyStr.strip "  Disallow: /x  " = "Disallow: /x".
Proof. reflexivity. Qed.

Example lower_ex : PyStr.lower "User-Agent: *" = "user-agent: *".
Proof. reflexivity. Qed.

Example split1_ex : PyStr.split1 ":" "Disallow: /a:b" = ("Disallow", Some " /a:b").
Proof. reflexivity. Qed.

Example urlparse_private :
  UrlParse.urlparse "https://h/private/x"
  = Ret (mkParseResult "https" "h" "/private/x" "" "" "").
Proof. vm_compute. reflexivity. Qed.

Example urlparse_full :
  UrlParse.urlparse "HTTP://Host:80/a/b;p?q=1#f"
  = Ret (mkParseResult "http" "Host:80" "/a/b" "p" "q=1" "f").
Proof. vm_compute. reflexivity. Qed.

Example urlparse_no_path :
  UrlParse.urlparse "https://h" = Ret (mkParseResult "https" "h" "" "" "" "").
Proof. vm_compute. reflexivity. Qed.

Example urlparse_bad_bracket :
  UrlParse.urlparse "http://[" = Raise (ValueError "Invalid IPv6 URL").
Proof. vm_compute. reflexivity. Qed.

Lemma outcome_triple {A} (r : result A) t ev : outcome (r, t, ev) = r.
Proof. reflexivity. Qed.

Lemma clock_triple {A} (r : result A) t ev : clock (r, t, ev) = t.
Proof. reflexivity. Qed.

Lemma events_triple {A} (r : result A) t ev : events (r, t, ev) = ev.
Proof. reflexivity. Qed.

Example get_404 :
  let r := get steady (always 404) default_fetcher "https://h/x" 0%nat in
  outcome r = Raise (HTTPError 404 false) /\
  session_gets (events r) = ["https://h/x"; "https://h/x"; "https://h/x"; "https://h/x"].
Proof. vm_compute. split; reflexivity. Qed.

Ltac triples := rewrite ?outcome_triple, ?clock_triple, ?events_triple.

(** ** Fetcher.get: attempts and the statement after the loop *)

Lemma session_gets_app (a b : list event) :
  session_gets (a ++ b) = session_gets a ++ session_gets b.
Proof. unfold session_gets. apply omap_app. Qed.

Lemma only_sleeps_session (l : list event) :
  Forall (fun e => is_sleep e = true) l -> session_gets l = [].
Proof.
  induction 1 as [|e l He _ IH]; [reflexivity|].
  destruct e; try discriminate He; exact IH.
Qed.

Section FetcherFacts.

Variable rt : Runtime.
Variable net : nat -> channel -> string -> answer.

Lemma attempt_once_clock url t : clock (attempt_once net url t) = S t.
Proof.
  unfold attempt_once, bind, request, raise, lift, ret, raise_for_status, clock.
  destruct (net t ViaSession url) as [r| | |]; simpl; try reflexivity.
  destruct (transient_status (status_code r)); simpl; [reflexivity|].
  destruct ((400 <=? status_code r) && (status_code r <? 600)); reflexivity.
Qed.

Lemma attempt_once_events url t :
  events (attempt_once net url t) = [EvSessionGet url].
Proof.
  unfold attempt_once, bind, request, raise, lift, ret, raise_for_status, events.
  destruct (net t ViaSession url) as [r| | |]; simpl; try reflexivity.
  destruct (transient_status (status_code r)); simpl; [reflexivity|].
  destruct ((400 <=? status_code r) && (status_code r <? 600)); reflexivity.
Qed.


(** [time.sleep] either sleeps, leaving its event, or raises without one;
    it never sends a request. *)
Lemma time_sleep_cases (d : Q) (ev : event) (t : nat) :
  (Qle_bool 0 d = true /\ too_long rt d = false /\
   time_sleep rt d ev t = (Ret tt, t, [ev])) \/
  (exists e, sleep_error e = true /\ time_sleep rt d ev t = (Raise e, t, []) /\
             (Qle_bool 0 d = false \/ too_long rt d = true)).
Proof.
  unfold time_sleep. destruct (Qle_bool 0 d); cbn [negb].
  - destruct (too_long rt d).
    + right. eexists. split; [|split; [reflexivity | right; reflexivity]]. reflexivity.
    + left. repeat split; reflexivity.
  - right. eexists. split; [|split; [reflexivity | left; reflexivity]]. reflexivity.
Qed.

(** The sleeps before an attempt leave the request count as it is, leave
    only events of sleeping, and raise only what [time.sleep] raises. *)
Lemma before_attempt_spec self delay t :
  let b := before_attempt rt self delay t in
  clock b = t /\
  Forall (fun e => is_sleep e = true) (events b) /\
  match outcome b with
  | Ret _ => True
  | Raise e => sleep_error e = true
  end.
Proof.
  cbv zeta. unfold before_attempt, sleep_jitter, bind.
  destruct (time_sleep_cases (uniform rt t (min_delay self) (max_delay self)) EvJitter t)
    as [(_ & _ & Hj) | (ej & Hej & Hj & _)].
  - destruct (Qeq_bool delay 0).
    + unfold ret. rewrite Hj. triples. repeat split; repeat constructor.
    + destruct (time_sleep_cases delay (EvSleep delay) t)
        as [(_ & _ & Hd) | (ed & Hed & Hd & _)]; rewrite Hd.
      * rewrite Hj. triples. repeat split; repeat constructor.
      * triples. repeat split; [constructor | exact Hed].
  - destruct (Qeq_bool delay 0).
    + unfold ret. rewrite Hj. triples. repeat split; [constructor | exact Hej].
    + destruct (time_sleep_cases delay (EvSleep delay) t)
        as [(_ & _ & Hd) | (ed & Hed & Hd & _)]; rewrite Hd.
      * rewrite Hj. triples. repeat split; [repeat constructor | exact Hej].
      * triples. repeat split; [constructor | exact Hed].
Qed.

(** When neither sleep raises, the events are the backoff sleep (for a
    delay that is not zero) and the jitter. *)
Lemma before_attempt_ok self delay t :
  jitter_ok rt self t ->
  Qeq_bool delay 0 = true \/ (Qle_bool 0 delay = true /\ too_long rt delay = false) ->
  before_attempt rt self delay t
  = (Ret tt, t, (if Qeq_bool delay 0 then [] else [EvSleep delay]) ++ [EvJitter]).
Proof.
  intros [Hj1 Hj2] Hd. unfold before_attempt, sleep_jitter, bind, time_sleep.
  destruct (Qeq_bool delay 0).
  - unfold ret. rewrite Hj1, Hj2. reflexivity.
  - destruct Hd as [Hd | [Hd1 Hd2]]; [discriminate|]. rewrite Hd1, Hd2.
    cbn [negb]. unfold emit. rewrite Hj1, Hj2. reflexivity.
Qed.

(** The three ways the sleeps before an attempt end: both done; the
    jitter raised (after the backoff sleep, if any); the backoff sleep
    raised. *)
Lemma before_attempt_cases self delay t :
  let hd := if Qeq_bool delay 0 then [] else [EvSleep delay] in
  before_attempt rt self delay t = (Ret tt, t, hd ++ [EvJitter]) \/
  exists e hd', sleep_error e = true /\
    before_attempt rt self delay t = (Raise e, t, hd') /\ (hd' = hd \/ hd' = []).
Proof.
  cbv zeta. unfold before_attempt, sleep_jitter, bind.
  destruct (time_sleep_cases (uniform rt t (min_delay self) (max_delay self)) EvJitter t)
    as [(_ & _ & Hj) | (ej & Hej & Hj & _)].
  - destruct (Qeq_bool delay 0).
    + unfold ret. rewrite Hj. left. reflexivity.
    + destruct (time_sleep_cases delay (EvSleep delay) t)
        as [(_ & _ & Hd) | (ed & Hed & Hd & _)]; rewrite Hd.
      * rewrite Hj. left. reflexivity.
      * right. exists ed, []. split; [exact Hed|]. split; [reflexivity | right; reflexivity].
  - destruct (Qeq_bool delay 0).
    + unfold ret. rewrite Hj. right. exists ej, [].
      split; [exact Hej|]. split; [reflexivity | left; reflexivity].
    + destruct (time_sleep_cases delay (EvSleep delay) t)
        as [(_ & _ & Hd) | (ed & Hed & Hd & _)]; rewrite Hd.
      * rewrite Hj. right. exists ej, [EvSleep delay].
        split; [exact Hej|]. split; [reflexivity | left; reflexivity].
      * right. exists ed, []. split; [exact Hed|]. split; [reflexivity | right; reflexivity].
Qed.

(** One turn of the loop of [Fetcher.get], spelled out. *)
Lemma get_attempts_cons self url attempt rest delay t :
  get_attempts rt net self url (attempt :: rest) delay t =
  let b := before_attempt rt self delay t in
  match outcome b with
  | Raise e => (Raise e, t, events b)
  | Ret _ =>
      let a := attempt_once net url t in
      match outcome a with
      | Ret resp => (Ret resp, clock a, events b ++ events a)
      | Raise e =>
          if caught e && negb (attempt =? max_retries self) then
            match next_delay rt self attempt with
            | Ret d =>
                let r := get_attempts rt net self url rest d (clock a) in
                (outcome r, clock r, events b ++ events a ++ events r)
            | Raise e' => (Raise e', clock a, events b ++ events a)
            end
          else (Raise e, clock a, events b ++ events a)
      end
  end.
Proof.
  cbn [get_attempts]. cbv zeta. unfold bind at 1.
  destruct (before_attempt_spec self delay t) as (Hc & _ & _). cbv zeta in Hc.
  destruct (before_attempt rt self delay t) as [[[u|e] tb] evb];
    rewrite clock_triple in Hc; subst tb; triples; [|reflexivity].
  unfold try_except, lift, raise.
  destruct (attempt_once net url t) as [[[resp|e] t1] ev1]; triples;
    [reflexivity|].
  destruct (caught e); cbn [andb]; [|reflexivity].
  destruct (attempt =? max_retries self); cbn [negb];
    [rewrite app_nil_r; reflexivity|].
  unfold bind. destruct (next_delay rt self attempt) as [d|e'];
    [|rewrite app_nil_r; reflexivity].
  destruct (get_attempts rt net self url rest d t1) as [[r t2] ev2].
  cbn [app]. reflexivity.
Qed.



Lemma py_range_length (a b : Z) : length (py_range a b) = Z.to_nat (b - a).
Proof. unfold py_range. rewrite length_map, length_seq. reflexivity. Qed.




End FetcherFacts.

(** ** Fetcher.get as a whole *)

Section GetFacts.

Variable rt : Runtime.
Variable net : nat -> channel -> string -> answer.

Lemma get_unfold self url t :
  let r := get_attempts rt net self url (py_range 1 (max_retries self + 1)) 0 t in
  get rt net self url t = (outcome r, clock r, EvCallGet url :: events r).
Proof.
  cbv zeta. unfold get, bind, emit.
  destruct (get_attempts _ _ _ _ _ _ _) as [[r t2] ev2]. reflexivity.
Qed.

Lemma py_range_cons (a b : Z) :
  a < b -> py_range a b = a :: py_range (a + 1) b.
Proof.
  intros H. unfold py_range.
  replace (Z.to_nat (b - a)) with (S (Z.to_nat (b - (a + 1)))) by lia.
  cbn [seq map]. f_equal; [lia|].
  rewrite <- seq_shift, map_map. apply map_ext. intros i. lia.
Qed.

Lemma backoff_ok_delay self a :
  backoff_ok rt self a ->
  exists d, next_delay rt self a = Ret d /\
            Qle_bool 0 d = true /\ too_long rt d = false.
Proof.
  intros (p & Hp & Hl). exists (Qmax (1 # 2) p). unfold next_delay. rewrite Hp.
  split; [reflexivity|]. split; [|exact Hl].
  apply Qle_bool_iff. apply Qle_trans with (1 # 2); [discriminate|].
  apply Q.le_max_l.
Qed.

(** The attempts of a call whose sleeps do not raise: while an attempt
    fails with a caught exception and is not the last, the loop goes on;
    the first attempt that returns, that fails with an exception of
    another class, or that is numbered [max_retries], ends the call. *)
Lemma get_attempts_run self url (k : nat) : forall (a : Z) delay (t : nat),
  a + Z.of_nat k <= max_retries self ->
  Qeq_bool delay 0 = true \/ (Qle_bool 0 delay = true /\ too_long rt delay = false) ->
  (forall i : nat, (i <= k)%nat -> jitter_ok rt self (t + i)%nat) ->
  (forall i : nat, (i < k)%nat -> backoff_ok rt self (a + Z.of_nat i)) ->
  (forall i : nat, (i < k)%nat -> exists e,
      outcome (attempt_once net url (t + i)%nat) = Raise e /\ caught e = true) ->
  (a + Z.of_nat k = max_retries self \/
   forall e, outcome (attempt_once net url (t + k)%nat) = Raise e ->
             caught e = false) ->
  let r := get_attempts rt net self url (py_range a (max_retries self + 1)) delay t in
  outcome r = outcome (attempt_once net url (t + k)%nat) /\
  session_gets (events r) = replicate (S k) url /\
  clock r = (t + S k)%nat.
Proof.
  induction k as [|k IH]; intros a delay t Ha Hdelay Hjit Hback Hfail Hlast;
    cbv zeta; rewrite py_range_cons by lia; rewrite get_attempts_cons; cbv zeta;
    rewrite (before_attempt_ok _ self delay t
               ltac:(specialize (Hjit 0%nat ltac:(lia)); rewrite Nat.add_0_r in Hjit;
                     exact Hjit) Hdelay);
    triples; rewrite attempt_once_clock, attempt_once_events;
    assert (Hsl : session_gets
              (((if Qeq_bool delay 0 then [] else [EvSleep delay]) ++ [EvJitter])
               ++ [EvSessionGet url]) = [url])
      by (destruct (Qeq_bool delay 0); reflexivity).
  - rewrite Nat.add_0_r in *.
    destruct (outcome (attempt_once net url t)) as [resp|e] eqn:Ho.
    + triples. split; [reflexivity|]. split; [exact Hsl | lia].
    + assert (Hstop : caught e && negb (a =? max_retries self) = false).
      { destruct Hlast as [Hmax | Hun].
        - replace (a =? max_retries self) with true
            by (symmetry; apply Z.eqb_eq; lia). apply andb_false_r.
        - rewrite (Hun e eq_refl). reflexivity. }
      rewrite Hstop. triples. split; [reflexivity|]. split; [exact Hsl | lia].
  - destruct (Hfail 0%nat ltac:(lia)) as (e & He & Hc). rewrite Nat.add_0_r in He.
    rewrite He, Hc. replace (a =? max_retries self) with false
      by (symmetry; apply Z.eqb_neq; lia). cbn [andb negb].
    destruct (backoff_ok_delay self a) as (d & Hd & Hd1 & Hd2).
    { specialize (Hback 0%nat ltac:(lia)). rewrite Z.add_0_r in Hback. exact Hback. }
    rewrite Hd.
    destruct (IH (a + 1) d (S t)) as (Ho & Hs & Hcl).
    + lia.
    + right. split; assumption.
    + intros i Hi. replace (S t + i)%nat with (t + S i)%nat by lia.
      apply Hjit. lia.
    + intros i Hi. replace (a + 1 + Z.of_nat i) with (a + Z.of_nat (S i)) by lia.
      apply Hback. lia.
    + intros i Hi. destruct (Hfail (S i) ltac:(lia)) as (e' & He' & Hc').
      exists e'. replace (S t + i)%nat with (t + S i)%nat by lia. auto.
    + destruct Hlast as [Hmax | Hun]; [left; lia | right].
      intros e'. replace (S t + k)%nat with (t + S k)%nat by lia. apply Hun.
    + triples. rewrite app_assoc, session_gets_app, Hsl, Hs, Ho, Hcl.
      replace (S t + k)%nat with (t + S k)%nat by lia.
      split; [reflexivity|]. split; [reflexivity | lia].
Qed.

(** When every attempt from request [t] on fails with a caught exception
    and no sleep raises, the attempts numbered [a] to [max_retries] are all
    made: one request each, then the error of the last one. *)
Lemma get_attempts_all_fail self url (k : nat) : forall (a : Z) delay (t : nat),
  (forall i : nat, exists e,
      outcome (attempt_once net url (t + i)%nat) = Raise e /\ caught e = true) ->
  (forall i : nat, jitter_ok rt self (t + i)%nat) ->
  (forall i : Z, backoff_ok rt self i) ->
  Qeq_bool delay 0 = true \/ (Qle_bool 0 delay = true /\ too_long rt delay = false) ->
  1 <= a -> Z.of_nat k = max_retries self + 1 - a -> (0 < k)%nat ->
  let r := get_attempts rt net self url (py_range a (max_retries self + 1)) delay t in
  session_gets (events r) = replicate k url /\
  clock r = (t + k)%nat /\
  outcome r = outcome (attempt_once net url (t + k - 1)%nat).
Proof.
  intros a delay t Hfail Hjit Hback Hdelay Ha Hk Hpos. cbv zeta.
  destruct k as [|k]; [lia|].
  destruct (get_attempts_run self url k a delay t) as (Ho & Hs & Hc);
    [lia | exact Hdelay | auto | auto | auto | left; lia |].
  split; [exact Hs|]. split; [exact Hc|].
  rewrite Ho. f_equal. f_equal. lia.
Qed.

(** A status that [raise_for_status] rejects makes the attempt fail with a
    caught exception, whether the status is in the transient list or not. *)
Lemma attempt_once_error_status url t resp :
  net t ViaSession url = Answers resp ->
  400 <= status_code resp < 600 ->
  outcome (attempt_once net url t)
  = Raise (HTTPError (status_code resp) (transient_status (status_code resp))).
Proof.
  intros Hn Hs. unfold attempt_once, bind, request, raise, lift, ret,
    raise_for_status, outcome. rewrite Hn. cbn.
  destruct (transient_status (status_code resp)); cbn; [reflexivity|].
  replace ((400 <=? status_code resp) && (status_code resp <? 600)) with true
    by (symmetry; apply andb_true_iff; lia).
  reflexivity.
Qed.

(** When every attempt fails with a caught exception and no sleep raises,
    a call makes exactly [max_retries] requests and raises the error of
    the last. *)
Lemma get_all_fail self url (t : nat) :
  1 <= max_retries self ->
  (forall i : nat, exists e,
      outcome (attempt_once net url (t + i)%nat) = Raise e /\ caught e = true) ->
  (forall i : nat, jitter_ok rt self (t + i)%nat) ->
  (forall i : Z, backoff_ok rt self i) ->
  let r := get rt net self url t in
  session_gets (events r) = replicate (Z.to_nat (max_retries self)) url /\
  outcome r
  = outcome (attempt_once net url (t + Z.to_nat (max_retries self) - 1)%nat).
Proof.
  intros Hn Hfail Hjit Hback. cbv zeta. rewrite get_unfold. cbv zeta. triples.
  destruct (get_attempts_all_fail self url (Z.to_nat (max_retries self)) 1 0 t
              Hfail Hjit Hback ltac:(left; reflexivity)
              ltac:(lia) ltac:(lia) ltac:(lia)) as (Hs & _ & Ho).
  cbv zeta in Hs, Ho. split; [|exact Ho].
  change (session_gets (EvCallGet url :: ?l)) with (session_gets l). exact Hs.
Qed.

(** Any 4xx or 5xx status, transient or not, is retried until the attempts
    run out. *)
Lemma get_retries_error_status self url (t : nat) (s : Z) :
  1 <= max_retries self -> 400 <= s < 600 ->
  (forall i : nat, exists resp,
      net (t + i)%nat ViaSession url = Answers resp /\ status_code resp = s) ->
  (forall i : nat, jitter_ok rt self (t + i)%nat) ->
  (forall i : Z, backoff_ok rt self i) ->
  let r := get rt net self url t in
  session_gets (events r) = replicate (Z.to_nat (max_retries self)) url /\
  outcome r = Raise (HTTPError s (transient_status s)).
Proof.
  intros Hn Hs Hnet Hjit Hback.
  assert (Hone : forall i : nat,
             outcome (attempt_once net url (t + i)%nat)
             = Raise (HTTPError s (transient_status s))).
  { intros i. destruct (Hnet i) as (resp & Hr & <-).
    apply attempt_once_error_status; assumption. }
  destruct (get_all_fail self url t Hn) as [Hg Ho]; [|exact Hjit | exact Hback|].
  { intros i. eexists. split; [apply Hone | reflexivity]. }
  cbv zeta in *. split; [exact Hg|]. rewrite Ho.
  replace (t + Z.to_nat (max_retries self) - 1)%nat
    with (t + (Z.to_nat (max_retries self) - 1))%nat by lia.
  apply Hone.
Qed.

End GetFacts.

(** C1. With the default four attempts and a server that answers 404 to
    every request, [Fetcher.get] sends the request four times (three
    retries, each after a backoff sleep) and only then raises the
    [HTTPError] of [raise_for_status]: a non-transient status is retried
    like a transient one, where the claim has it raise at once. *)
Theorem get_retries_status_404 :
  let r := get steady (always 404) default_fetcher "https://h/x" 0%nat in
  outcome r = Raise (HTTPError 404 false) /\
  session_gets (events r) = replicate 4 "https://h/x" /\
  clock r = 4%nat /\
  get_calls (events r) = ["https://h/x"].
Proof. vm_compute. repeat split; reflexivity. Qed.




(** ** robots_allows *)

Lemma lower_char_colon (c : ascii) : PyStr.lower_char c = ":"%char -> c = ":"%char.
Proof.
  destruct c as [[] [] [] [] [] [] [] []]; vm_compute; intros H;
    first [reflexivity | discriminate H].
Qed.

Lemma contains_split1 (c : ascii) (s : string) :
  PyStr.contains c s = true -> exists a r, PyStr.split1 c s = (a, Some r).
Proof.
  induction s as [|d s IH]; cbn [PyStr.contains PyStr.split1]; [discriminate|].
  destruct (Ascii.eqb c d); [eauto|].
  intros H. destruct (IH H) as (a & r & ->). eauto.
Qed.

Lemma prefix_lower_colon (p : string) : forall l,
  String.prefix p (PyStr.lower l) = true ->
  PyStr.contains ":" p = true -> PyStr.contains ":" l = true.
Proof.
  induction p as [|a p IH]; intros [|b l];
    cbn [String.prefix PyStr.lower PyStr.contains]; try discriminate.
  destruct (ascii_dec a (PyStr.lower_char b)) as [->|]; [|discriminate].
  intros Hp. destruct (Ascii.eqb ":" (PyStr.lower_char b)) eqn:E.
  - intros _. apply Ascii.eqb_eq in E. symmetry in E.
    apply lower_char_colon in E. subst b. reflexivity.
  - intros Hc. destruct (Ascii.eqb ":" b); [reflexivity|]. eauto.
Qed.

(** A line that passes the test of line 104 has a colon, is not blank and
    is not a comment. *)
Lemma user_agent_line_shape (l : string) :
  PyStr.startswith (PyStr.lower l) "user-agent:" = true ->
  PyStr.truthy l = true /\ PyStr.startswith l "#" = false /\
  exists rest, after_colon l = Ret rest.
Proof.
  unfold PyStr.startswith. intros H.
  assert (Hc : PyStr.contains ":" l = true)
    by (eapply prefix_lower_colon; [exact H | reflexivity]).
  destruct (contains_split1 _ _ Hc) as (a & r & Hs).
  split; [|split].
  - destruct l; [discriminate H | reflexivity].
  - destruct l as [|c l]; [reflexivity|]. cbn [String.prefix].
    destruct (ascii_dec "#" c) as [<-|]; [|reflexivity].
    exfalso. vm_compute in H. discriminate H.
  - exists r. unfold after_colon. rewrite Hs. reflexivity.
Qed.

Section RobotsFacts.

Variable urlparse : string -> result ParseResult.
Variable net : nat -> channel -> string -> answer.

Lemma robots_allows_parsed url parsed user_agent t :
  urlparse url = Ret parsed ->
  robots_allows urlparse net url user_agent t
  = (Ret (robots_verdict net parsed user_agent t), S t,
     [EvRequestsGet (robots_url parsed)]).
Proof.
  intros Hp. unfold robots_allows, robots_verdict, bind, lift, try_except,
    request, ret. rewrite Hp.
  destruct (net t ViaRequests (robots_url parsed)) as [r| | |]; cbn; try reflexivity.
  destruct (robots_decide parsed user_agent r); reflexivity.
Qed.

Lemma robots_allows_unparsed url user_agent t e :
  urlparse url = Raise e ->
  robots_allows urlparse net url user_agent t = (Raise e, t, []).
Proof.
  intros Hp. unfold robots_allows, bind, lift. rewrite Hp. reflexivity.
Qed.

Lemma robots_line_keeps user_agent b ds line st :
  PyStr.startswith (PyStr.lower (PyStr.strip line)) "disallow:" = false ->
  robots_line user_agent (b, ds) line = Ret st -> st.2 = ds.
Proof.
  intros Hd. unfold robots_line. rewrite Hd, andb_false_r.
  destruct (negb (PyStr.truthy (PyStr.strip line)) || _);
    [intros [= <-]; reflexivity|].
  destruct (PyStr.startswith _ "user-agent:"); [|intros [= <-]; reflexivity].
  destruct (after_colon _); cbn [rbind]; [intros [= <-]; reflexivity | discriminate].
Qed.

Lemma robots_lines_keep user_agent lines : forall b ds st,
  Forall (fun line =>
            PyStr.startswith (PyStr.lower (PyStr.strip line)) "disallow:" = false)
         lines ->
  robots_lines user_agent (b, ds) lines = Ret st -> st.2 = ds.
Proof.
  induction lines as [|line rest IH]; intros b ds st Hall; cbn [robots_lines].
  - intros [= <-]. reflexivity.
  - apply Forall_cons in Hall as [Hl Hrest].
    destruct (robots_line user_agent (b, ds) line) as [[b' ds']|e] eqn:E;
      cbn [rbind]; [|discriminate].
    apply robots_line_keeps in E; [|exact Hl]. cbn in E. subst ds'.
    apply IH. exact Hrest.
Qed.

End RobotsFacts.

(** C2 (counterexample). With the default agent [""], the line
    [User-agent: *] does not open the block, so [/private/x] is allowed. *)
Lemma robots_star_default_agent_private :
  outcome (robots_allows UrlParse.urlparse (serves_robots robots_star)
             "https://h/private/x" "" 0%nat) <> Ret false.
Proof. vm_compute. discriminate. Qed.

(** C2 (as amended). For the body [User-agent: *] / [Disallow: /private],
    [robots_allows] queried with the agent ["*"] refuses
    [https://h/private/x] and allows [https://h/public], which the default
    agent is allowed too; and a [User-agent] line sets the block active
    exactly when its value is blank or equals the queried agent up to
    case, whatever the block was before. *)
Theorem robots_user_agent_block :
  outcome (robots_allows UrlParse.urlparse (serves_robots robots_star)
             "https://h/private/x" "*" 0%nat) = Ret false /\
  outcome (robots_allows UrlParse.urlparse (serves_robots robots_star)
             "https://h/public" "*" 0%nat) = Ret true /\
  outcome (robots_allows UrlParse.urlparse (serves_robots robots_star)
             "https://h/public" "" 0%nat) = Ret true /\
  (forall (user_agent : string) (b : bool) (ds : list string) (line : string),
     PyStr.startswith (PyStr.lower (PyStr.strip line)) "user-agent:" = true ->
     exists rest active,
       after_colon (PyStr.strip line) = Ret rest /\
       robots_line user_agent (b, ds) line = Ret (active, ds) /\
       (active = true <->
        PyStr.strip rest = "" \/
        PyStr.lower (PyStr.strip rest) = PyStr.lower user_agent)).
Proof.
  split; [vm_compute; reflexivity|].
  split; [vm_compute; reflexivity|].
  split; [vm_compute; reflexivity|].
  intros user_agent b ds line H.
  destruct (user_agent_line_shape _ H) as (Ht & Hh & rest & Hr).
  exists rest. eexists. split; [exact Hr|]. split.
  - unfold robots_line. rewrite Ht, Hh, H, Hr. reflexivity.
  - unfold PyStr.eqb. rewrite orb_true_iff, !String.eqb_eq. reflexivity.
Qed.

Lemma robots_user_agent_block_witness :
  exists rest active,
    after_colon (PyStr.strip "User-Agent: *") = Ret rest /\
    robots_line "" (true, ["/private"]) "User-Agent: *" = Ret (active, ["/private"]) /\
    (active = true <->
     PyStr.strip rest = "" \/ PyStr.lower (PyStr.strip rest) = PyStr.lower "").
Proof.
  apply (proj2 (proj2 (proj2 robots_user_agent_block))). reflexivity.
Defined.

Example robots_blank_agent_blocks :
  outcome (robots_allows UrlParse.urlparse (serves_robots robots_blank)
             "https://h/private/x" "" 0%nat) = Ret false.
Proof. vm_compute. reflexivity. Qed.

(** C6 (counterexample). [urlparse(url)] runs before the [try]: a URL it
    rejects makes [robots_allows] raise. *)
Lemma robots_allows_raises_on_bad_url :
  outcome (robots_allows UrlParse.urlparse (serves_robots robots_star)
             "http://[" "" 0%nat) = Raise (ValueError "Invalid IPv6 URL").
Proof. vm_compute. reflexivity. Qed.

(** C6 (as amended). For every URL that [urlparse] accepts, [robots_allows]
    returns a boolean and never raises; the answer is [True] when the
    request for robots.txt fails, when its status is not 200, when
    anything raises while the body is read, and when the body has no
    [Disallow] line at all. *)
Theorem robots_allows_permissive
    (urlparse : string -> result ParseResult)
    (net : nat -> channel -> string -> answer)
    (url user_agent : string) (t : nat) (parsed : ParseResult) :
  urlparse url = Ret parsed ->
  let r := robots_allows urlparse net url user_agent t in
  (exists b, outcome r = Ret b) /\
  ((forall resp, net t ViaRequests (robots_url parsed) <> Answers resp) ->
   outcome r = Ret true) /\
  (forall resp, net t ViaRequests (robots_url parsed) = Answers resp ->
     status_code resp <> 200 \/
     (exists e, robots_decide parsed user_agent resp = Raise e) \/
     no_disallow_line (text resp) ->
     outcome r = Ret true).
Proof.
  intros Hp. cbv zeta. rewrite (robots_allows_parsed _ _ _ _ _ _ Hp). triples.
  split; [eauto|]. unfold robots_verdict. split.
  - intros Hfail. destruct (net t ViaRequests (robots_url parsed)) as [r| | |];
      try reflexivity. exfalso. apply (Hfail r). reflexivity.
  - intros resp -> [Hs | [[e He] | Hb]].
    + unfold robots_decide. apply Z.eqb_neq in Hs. rewrite Hs. reflexivity.
    + rewrite He. reflexivity.
    + unfold robots_decide. destruct (negb (status_code resp =? 200)); [reflexivity|].
      destruct (robots_lines user_agent (false, []) (PyStr.splitlines (text resp)))
        as [[b ds]|e] eqn:E; cbn [rbind]; [|reflexivity].
      apply robots_lines_keep in E; [|exact Hb]. cbn in E. subst ds. reflexivity.
Qed.

Lemma robots_allows_permissive_witness :
  exists b, outcome (robots_allows UrlParse.urlparse (always 404)
                       "https://h/private/x" "" 0%nat) = Ret b.
Proof.
  apply (proj1 (robots_allows_permissive UrlParse.urlparse (always 404)
                  "https://h/private/x" "" 0%nat
                  (mkParseResult "https" "h" "/private/x" "" "" "")
                  ltac:(vm_compute; reflexivity))).
Defined.

(** ** parse_example_json *)

Lemma parse_example_json_bare_list (l : list value) (base_url : string) :
  parse_example_json (json_response (VList l)) base_url
  = Raise (AttributeError "get").
Proof. reflexivity. Qed.

(** C3. An object with [items] yields one row per item, with the missing
    fields [None]; an object without [items] yields no row; but a body that
    is a bare list makes [data.get] raise [AttributeError], where the claim
    has the list iterated. *)
Theorem parse_example_json_cases (base_url : string) :
  parse_example_json
    (json_response (VDict [("items", VList [VDict [("id", VInt 1); ("name", VStr "a")]])]))
    base_url
  = Ret [[("id", VInt 1); ("name", VStr "a"); ("value", VNone);
          ("source", VStr base_url)]] /\
  parse_example_json (json_response (VDict [("other", VInt 1)])) base_url = Ret [] /\
  parse_example_json (json_response (VList [VDict [("id", VInt 2)]])) base_url
  = Raise (AttributeError "get").
Proof. repeat split; reflexivity. Qed.

(** ** parse_example_html *)

Lemma truthy_nonempty (s : string) : PyStr.truthy s = true <-> s <> "".
Proof. destruct s; cbn; split; intros H; congruence. Qed.

Section HtmlFacts.

Variable urljoin : string -> string -> result string.

Lemma card_title_found (card : node) :
  truthy_opt (card_title card) = true <-> found_title card.
Proof.
  unfold card_title, found_title.
  destruct (Soup.select_one sel_title card) as [el|]; cbn.
  - rewrite truthy_nonempty. split; [eauto|]. intros (el' & [= <-] & H). exact H.
  - split; [discriminate|]. intros (el' & [=] & _).
Qed.

Lemma card_price_found (card : node) :
  truthy_opt (card_price card) = true <-> found_price card.
Proof.
  unfold card_price, found_price.
  destruct (Soup.select_one sel_price card) as [el|]; cbn.
  - rewrite truthy_nonempty. split; [eauto|]. intros (el' & [= <-] & H). exact H.
  - split; [discriminate|]. intros (el' & [=] & _).
Qed.

Lemma card_href_found (base_url : string) (card : node) (href : option string) :
  card_href urljoin base_url card = Ret href ->
  truthy_opt href = true <-> found_link urljoin base_url card.
Proof.
  unfold card_href, found_link.
  destruct (Soup.select_one sel_link card) as [el|].
  2:{ intros [= <-]. split; [discriminate|]. intros (? & ? & ? & [=] & _). }
  destruct (Soup.attr "href" el) as [h|] eqn:Ha.
  2:{ intros [= <-]. split; [discriminate|].
      intros (? & ? & ? & [= <-] & Ha' & _). congruence. }
  destruct (PyStr.truthy h) eqn:Th.
  - destruct (urljoin base_url h) as [u|e] eqn:Ju; cbn [rbind]; [|discriminate].
    intros [= <-]. cbn. rewrite truthy_nonempty. split.
    + intros Hu. exists el, h, u. apply truthy_nonempty in Th. auto.
    + intros (el' & h' & u' & [= <-] & Ha' & _ & Ju' & Hu).
      rewrite Ha in Ha'. injection Ha' as <-.
      rewrite Ju in Ju'. injection Ju' as <-. exact Hu.
  - intros [= <-]. split; [discriminate|].
    intros (el' & h' & u' & [= <-] & Ha' & Hh & _).
    rewrite Ha in Ha'. injection Ha' as <-.
    apply truthy_nonempty in Hh. congruence.
Qed.

Lemma card_href_no_link (base_url : string) (card : node) :
  Soup.select_one sel_link card = None ->
  card_href urljoin base_url card = Ret None.
Proof. intros H. unfold card_href. rewrite H. reflexivity. Qed.

Lemma card_href_cases (base_url : string) (card : node) :
  match card_href urljoin base_url card with
  | Ret href => link_resolves urljoin base_url card
  | Raise e => exists el h,
      Soup.select_one sel_link card = Some el /\ Soup.attr "href" el = Some h /\
      h <> "" /\ urljoin base_url h = Raise e
  end.
Proof.
  unfold card_href, link_resolves.
  destruct (Soup.select_one sel_link card) as [el|]; [|intros ? ? [=]].
  destruct (Soup.attr "href" el) as [h|] eqn:Ha;
    [|intros ? ? [= <-] Ha'; congruence].
  destruct (PyStr.truthy h) eqn:Th.
  - destruct (urljoin base_url h) as [u|e] eqn:Ju; cbn [rbind].
    + intros el' h' [= <-] Ha' _. rewrite Ha in Ha'. injection Ha' as <-. eauto.
    + exists el, h. apply truthy_nonempty in Th. auto.
  - intros el' h' [= <-] Ha' Hh. rewrite Ha in Ha'. injection Ha' as <-.
    apply truthy_nonempty in Hh. congruence.
Qed.

(** C9 (as amended). For a card whose link, if it has one with a non-empty
    [href], is resolved by [urljoin], the extractor emits a row exactly
    when one of the three fields is found with a non-empty value (title
    text, joined link, price text); the row always has the four keys, and
    the key of a field whose element is missing holds [None]. When
    [urljoin] raises for the [href] of the card, the exception leaves the
    extractor and the card yields no row, whatever its title and price.
    A card with a title element that has text and neither link nor price
    yields one row with [url] and [price] [None]; a card with none of the
    three elements yields no row. *)
Theorem card_rows_emission (base_url : string) (card : node) :
  (link_resolves urljoin base_url card ->
   exists rows, card_rows urljoin base_url card = Ret rows /\
     (rows <> [] <->
      found_title card \/ found_link urljoin base_url card \/ found_price card) /\
     (forall r, r ∈ rows ->
        rows = [r] /\
        row_keys r = ["title"; "url"; "price"; "source"] /\
        (Soup.select_one sel_title card = None -> dict_lookup "title" r = Some VNone) /\
        (Soup.select_one sel_link card = None -> dict_lookup "url" r = Some VNone) /\
        (Soup.select_one sel_price card = None -> dict_lookup "price" r = Some VNone) /\
        dict_lookup "source" r = Some (VStr base_url))) /\
  (forall el h e,
     Soup.select_one sel_link card = Some el -> Soup.attr "href" el = Some h ->
     h <> "" -> urljoin base_url h = Raise e ->
     card_rows urljoin base_url card = Raise e) /\
  (forall el,
     Soup.select_one sel_title card = Some el -> Soup.get_text_strip el <> "" ->
     Soup.select_one sel_link card = None -> Soup.select_one sel_price card = None ->
     card_rows urljoin base_url card
     = Ret [[("title", VStr (Soup.get_text_strip el)); ("url", VNone);
             ("price", VNone); ("source", VStr base_url)]]) /\
  (Soup.select_one sel_title card = None ->
   Soup.select_one sel_link card = None -> Soup.select_one sel_price card = None ->
   card_rows urljoin base_url card = Ret []).
Proof.
  split; [|split; [|split]].
  - intros Hres. unfold card_rows.
    pose proof (card_href_cases base_url card) as Hcases.
    destruct (card_href urljoin base_url card) as [href|e] eqn:Hh; cbn [rbind].
    2:{ destruct Hcases as (el & h & Hl & Ha & Hne & Hj).
        destruct (Hres el h Hl Ha Hne) as [u Hu]. congruence. }
    pose proof (card_title_found card) as Ht.
    pose proof (card_price_found card) as Hp.
    pose proof (card_href_found base_url card href Hh) as Hl.
    destruct (truthy_opt (card_title card) || truthy_opt href
              || truthy_opt (card_price card)) eqn:E; eexists; (split; [reflexivity|]).
    + split.
      * split; [intros _|discriminate].
        apply orb_true_iff in E as [E|E]; [apply orb_true_iff in E as [E|E]|];
          [left; apply Ht | right; left; apply Hl | right; right; apply Hp]; exact E.
      * intros r Hr. apply list_elem_of_singleton in Hr. subst r.
        split; [reflexivity|]. split; [reflexivity|].
        split; [|split; [|split; [|reflexivity]]].
        -- intros Hn. unfold card_title. rewrite Hn. reflexivity.
        -- intros Hn. rewrite (card_href_no_link _ _ Hn) in Hh.
           injection Hh as <-. reflexivity.
        -- intros Hn. unfold card_price. rewrite Hn. reflexivity.
    + apply orb_false_iff in E as [E Ep]. apply orb_false_iff in E as [Et El].
      split.
      * split; [intros H; destruct H; reflexivity|]. intros [H|[H|H]];
          [apply Ht in H | apply Hl in H | apply Hp in H]; congruence.
      * intros r Hr. apply elem_of_nil in Hr. destruct Hr.
  - intros el h e Hl Ha Hne Hj. unfold card_rows, card_href.
    rewrite Hl, Ha. apply truthy_nonempty in Hne. rewrite Hne, Hj. reflexivity.
  - intros el Ht Htxt Hl Hp. unfold card_rows, card_title, card_price.
    rewrite (card_href_no_link _ _ Hl), Ht, Hp. cbn.
    apply truthy_nonempty in Htxt. rewrite Htxt. reflexivity.
  - intros Ht Hl Hp. unfold card_rows, card_title, card_price.
    rewrite (card_href_no_link _ _ Hl), Ht, Hp. reflexivity.
Qed.

End HtmlFacts.

Lemma card_rows_emission_witness :
  (exists rows, card_rows join_root "https://h" card_complete = Ret rows /\ rows <> []) /\
  card_rows join_strict "https://h" card_bad_link
    = Raise (ValueError "Invalid IPv6 URL") /\
  card_rows join_root "https://h" card_with_title
    = Ret [[("title", VStr "Widget"); ("url", VNone); ("price", VNone);
            ("source", VStr "https://h")]].
Proof.
  split; [|split].
  - destruct (proj1 (card_rows_emission join_root "https://h" card_complete))
      as (rows & Hr & Hiff & _).
    + intros el h _ _ _. exists ("https://h" ++ h)%string. reflexivity.
    + exists rows. split; [exact Hr|]. apply Hiff. left.
      exists (Elem "h2" [] [Text " Gadget "]). split; [reflexivity|].
      vm_compute. discriminate.
  - apply (proj1 (proj2 (card_rows_emission join_strict "https://h" card_bad_link))
             (Elem "a" [("href", "http://[")] [Text "x"]) "http://[");
      vm_compute; first [reflexivity | discriminate].
  - apply (proj1 (proj2 (proj2 (card_rows_emission join_root "https://h" card_with_title)))
             (Elem "h2" [("class", "title")] [Text "Widget"]));
      vm_compute; first [reflexivity | discriminate].
Defined.

(** C9 (counterexample). A card whose title element has no text, and which
    has neither link nor price, yields no row. *)
Lemma card_with_empty_title_no_row :
  Soup.select_one sel_title card_with_empty_title
    = Some (Elem "h2" [("class", "title")] []) /\
  Soup.select_one sel_link card_with_empty_title = None /\
  Soup.select_one sel_price card_with_empty_title = None /\
  parse_soup join_root (document [card_with_empty_title]) "https://h" = Ret [].
Proof. vm_compute. repeat split; reflexivity. Qed.

Example strip_nbsp : PyStr.strip (" " ++ nbsp ++ "9" ++ nbsp)%string = "9".
Proof. vm_compute. reflexivity. Qed.

Example card_nbsp_price_no_row :
  parse_soup join_root (document [card_nbsp_price]) "https://h" = Ret [].
Proof. vm_compute. reflexivity. Qed.

Example parse_soup_bad_link :
  parse_soup join_strict (document [card_with_title; card_bad_link]) "https://h"
  = Raise (ValueError "Invalid IPv6 URL").
Proof. vm_compute. reflexivity. Qed.

Example parse_soup_three_cards :
  parse_soup join_root
    (document [card_with_title; card_without_fields; card_complete]) "https://h"
  = Ret [[("title", VStr "Widget"); ("url", VNone); ("price", VNone);
          ("source", VStr "https://h")];
         [("title", VStr "Gadget"); ("url", VStr "https://h/p/1");
          ("price", VStr "9"); ("source", VStr "https://h")]].
Proof. vm_compute. reflexivity. Qed.

Example endless_crawl_stops :
  let r := mine_target UrlParse.urlparse steady echo_site default_fetcher endless_target 3 true
             10 0%nat in
  outcome r = Ret (Some [[("page", VStr "https://h/p")];
                         [("page", VStr "https://h/px")];
                         [("page", VStr "https://h/pxx")]]) /\
  seen_adds (events r) = ["https://h/p"; "https://h/px"; "https://h/pxx"] /\
  get_calls (events r) = ["https://h/p"; "https://h/px"; "https://h/pxx"].
Proof. vm_compute. repeat split; reflexivity. Qed.

Example one_page_crawl_aborts :
  let r := mine_target UrlParse.urlparse steady one_page_site default_fetcher endless_target 3 true
             10 0%nat in
  outcome r = Raise (HTTPError 404 false) /\
  get_calls (events r) = ["https://h/p"; "https://h/px"].
Proof. vm_compute. repeat split; reflexivity. Qed.

Example robots_skip_crawl :
  let r := mine_target UrlParse.urlparse steady (serves_robots robots_blank) default_fetcher
             two_page_target 10 true 10 0%nat in
  outcome r = Ret (Some [[("status", VInt 200)]]) /\
  seen_adds (events r) = ["https://h/private/x"; "https://h/public"] /\
  get_calls (events r) = ["https://h/public"].
Proof. vm_compute. repeat split; reflexivity. Qed.

(** ** The crawl loop: what one turn does *)

Lemma seen_adds_app (a b : list event) :
  seen_adds (a ++ b) = seen_adds a ++ seen_adds b.
Proof. unfold seen_adds. apply omap_app. Qed.

Lemma get_calls_app (a b : list event) :
  get_calls (a ++ b) = get_calls a ++ get_calls b.
Proof. unfold get_calls. apply omap_app. Qed.

Lemma seen_adds_add u l : seen_adds (EvSeenAdd u :: l) = u :: seen_adds l.
Proof. reflexivity. Qed.

Lemma get_calls_add u l : get_calls (EvSeenAdd u :: l) = get_calls l.
Proof. reflexivity. Qed.

Lemma seen_adds_print m l : seen_adds (EvPrint m :: l) = seen_adds l.
Proof. reflexivity. Qed.

Lemma get_calls_print m l : get_calls (EvPrint m :: l) = get_calls l.
Proof. reflexivity. Qed.

Lemma get_calls_call u l : get_calls (EvCallGet u :: l) = u :: get_calls l.
Proof. reflexivity. Qed.

Ltac project_events :=
  repeat first
    [ rewrite seen_adds_add | rewrite get_calls_add
    | rewrite seen_adds_app | rewrite get_calls_app
    | rewrite seen_adds_print | rewrite get_calls_print
    | rewrite get_calls_call ].

Lemma only_sleeps_quiet (l : list event) :
  Forall (fun e => is_sleep e = true) l ->
  seen_adds l = [] /\ get_calls l = [] /\ requests_gets l = [].
Proof.
  induction 1 as [|e l He _ IH]; [repeat split; reflexivity|].
  destruct e; try discriminate He; exact IH.
Qed.

Lemma get_attempts_quiet rt net self url attempts : forall delay t,
  seen_adds (events (get_attempts rt net self url attempts delay t)) = [] /\
  get_calls (events (get_attempts rt net self url attempts delay t)) = [].
Proof.
  induction attempts as [|a rest IH]; intros delay t; [split; reflexivity|].
  rewrite get_attempts_cons. cbv zeta.
  destruct (before_attempt_spec rt self delay t) as (_ & Hev & _). cbv zeta in Hev.
  apply only_sleeps_quiet in Hev as (Hs & Hg & _).
  destruct (outcome (before_attempt rt self delay t)) as [u|eb]; triples;
    [|split; assumption].
  destruct (outcome (attempt_once net url t)) as [resp|e].
  - triples. rewrite seen_adds_app, get_calls_app, Hs, Hg, attempt_once_events.
    split; reflexivity.
  - destruct (caught e && negb (a =? max_retries self));
      [destruct (next_delay rt self a) as [d|e']|]; triples;
      rewrite ?seen_adds_app, ?get_calls_app, Hs, Hg, attempt_once_events.
    + destruct (IH d (clock (attempt_once net url t))) as [-> ->].
      split; reflexivity.
    + split; reflexivity.
    + split; reflexivity.
Qed.

Lemma get_events rt net self url t :
  seen_adds (events (get rt net self url t)) = [] /\
  get_calls (events (get rt net self url t)) = [url].
Proof.
  rewrite get_unfold. cbv zeta. triples.
  destruct (get_attempts_quiet rt net self url (py_range 1 (max_retries self + 1)) 0 t)
    as [Hs Hg].
  split; [exact Hs|]. rewrite get_calls_call, Hg. reflexivity.
Qed.

Section CrawlFacts.

Variable urlparse : string -> result ParseResult.
Variable rt : Runtime.
Variable net : nat -> channel -> string -> answer.
Variable fetcher : Fetcher.
Variable target : Target.
Variable max_pages : Z.
Variable respect_robots : bool.

Local Abbreviation turn := (mine_iteration urlparse rt net fetcher target respect_robots).
Local Abbreviation loop := (mine_loop urlparse rt net fetcher target max_pages respect_robots).
Local Abbreviation denies := (robots_denies urlparse net respect_robots).
Local Abbreviation extract := (fetch_and_extract urlparse rt net fetcher target).
Local Abbreviation cond := (loop_cond max_pages).
Local Abbreviation run := (mine_target urlparse rt net fetcher target max_pages respect_robots).
Local Abbreviation turns := (iterations urlparse rt net fetcher target max_pages respect_robots).

(** The robots check sends at most its own request: it adds nothing to
    [seen_urls] and never calls the fetcher. *)
Lemma robots_denies_quiet url t :
  seen_adds (events (denies url t)) = [] /\
  get_calls (events (denies url t)) = [] /\
  session_gets (events (denies url t)) = [].
Proof.
  unfold robots_denies. destruct respect_robots; [|repeat split; reflexivity].
  unfold bind. destruct (urlparse url) as [parsed|e] eqn:Hp.
  - rewrite (robots_allows_parsed _ _ _ _ _ _ Hp). repeat split; reflexivity.
  - rewrite (robots_allows_unparsed _ _ _ _ _ _ Hp). repeat split; reflexivity.
Qed.

Lemma robots_denies_on url t :
  respect_robots = true ->
  denies url t =
  let a := robots_allows urlparse net url "" t in
  (match outcome a with Ret b => Ret (negb b) | Raise e => Raise e end,
   clock a, events a).
Proof.
  intros H. unfold robots_denies. rewrite H. unfold bind, ret. cbv zeta.
  destruct (robots_allows _ _ _ _ _) as [[[b|e] t1] ev1]; triples;
    rewrite ?app_nil_r; reflexivity.
Qed.

(** Lines 217-228 print, call the fetcher once, and either let the
    exception of the call out or go on with the same [seen_urls] and a
    queue that only grew at its end. *)
Lemma fetch_and_extract_spec url q seen rows t :
  let g := get rt net fetcher url t in
  let r := extract url q seen rows t in
  clock r = clock g /\
  events r = EvPrint (fetching_msg target url) :: events g /\
  match outcome g with
  | Raise e => outcome r = Raise e
  | Ret resp =>
      match outcome r with
      | Ret st' => seen_urls st' = seen /\ exists extra, queue st' = q ++ extra
      | Raise _ => True
      end
  end.
Proof.
  cbv zeta. unfold fetch_and_extract, bind, emit, lift, ret.
  destruct (get rt net fetcher url t) as [[[resp|e] t1] ev1]; triples;
    [|repeat split; reflexivity].
  destruct (base_url_of urlparse url) as [base|e]; triples;
    [|rewrite ?app_nil_r; repeat split; reflexivity].
  destruct (parser target resp base) as [items|e]; triples;
    [|rewrite ?app_nil_r; repeat split; reflexivity].
  destruct (discover_next_urls target) as [discover|]; triples.
  - destruct (discover resp base) as [next|e]; triples; cbn;
      rewrite ?app_nil_r; repeat split; try reflexivity. eexists; reflexivity.
  - cbn. rewrite ?app_nil_r. repeat split; try reflexivity.
    exists []. rewrite app_nil_r. reflexivity.
Qed.

Lemma mine_iteration_seen st url q t :
  queue st = url :: q -> url ∈ seen_urls st ->
  turn st t = (Ret (mkFrontier q (seen_urls st) (collected st)), t, []).
Proof.
  intros Hq Hin. unfold mine_iteration. rewrite Hq.
  rewrite bool_decide_eq_true_2 by exact Hin. reflexivity.
Qed.

Lemma mine_iteration_new st url q t :
  queue st = url :: q -> url ∉ seen_urls st ->
  let d := denies url t in
  turn st t =
  match outcome d with
  | Raise e => (Raise e, clock d, EvSeenAdd url :: events d)
  | Ret true =>
      (Ret (mkFrontier q ({[url]} ∪ seen_urls st) (collected st)), clock d,
       EvSeenAdd url :: events d ++ [EvPrint (skipping_msg target url)])
  | Ret false =>
      let f := extract url q ({[url]} ∪ seen_urls st) (collected st) (clock d) in
      (outcome f, clock f, EvSeenAdd url :: events d ++ events f)
  end.
Proof.
  intros Hq Hin. cbv zeta. unfold mine_iteration. rewrite Hq.
  rewrite bool_decide_eq_false_2 by exact Hin.
  unfold bind at 1 2, emit at 1.
  destruct (denies url t) as [[[[]|e] t1] ev1]; triples.
  - unfold bind, emit, ret. reflexivity.
  - destruct (extract _ _ _ _ _) as [[r t2] ev2]. reflexivity.
  - reflexivity.
Qed.

Lemma mine_loop_unfold fuel st t :
  loop (S fuel) st t =
  if cond st then
    match turn st t with
    | (Ret st', t1, ev1) =>
        let r := loop fuel st' t1 in (outcome r, clock r, ev1 ++ events r)
    | (Raise e, t1, ev1) => (Raise e, t1, ev1)
    end
  else (Ret (Some st), t, []).
Proof.
  cbn [mine_loop]. destruct (cond st); [|reflexivity].
  unfold bind. destruct (turn st t) as [[[st'|e] t1] ev1]; [|reflexivity].
  destruct (loop fuel st' t1) as [[r t2] ev2]. reflexivity.
Qed.

Lemma mine_loop_done fuel st t :
  cond st = false -> loop fuel st t = (Ret (Some st), t, []).
Proof. intros H. destruct fuel; cbn [mine_loop]; rewrite H; reflexivity. Qed.

Lemma loop_cond_true st :
  cond st = true ->
  exists url q, queue st = url :: q /\ Z.of_nat (size (seen_urls st)) < max_pages.
Proof.
  unfold loop_cond. destruct (queue st) as [|url q]; [discriminate|].
  intros H. apply Z.ltb_lt in H. eauto.
Qed.

(** What one turn does to the events and to the variables: a URL already
    seen is dropped silently; a new one is added to [seen_urls] once, and
    the fetcher is called for it once or not at all. *)
Lemma turn_summary st url q t :
  queue st = url :: q ->
  let r := turn st t in
  ((url ∈ seen_urls st) /\
   r = (Ret (mkFrontier q (seen_urls st) (collected st)), t, [])) \/
  ((url ∉ seen_urls st) /\
   seen_adds (events r) = [url] /\
   (get_calls (events r) = [] \/ get_calls (events r) = [url]) /\
   match outcome r with
   | Ret st' =>
       seen_urls st' = {[url]} ∪ seen_urls st /\ exists extra, queue st' = q ++ extra
   | Raise _ => True
   end).
Proof.
  intros Hq. cbv zeta. destruct (decide (url ∈ seen_urls st)) as [Hin|Hin].
  { left. split; [exact Hin|]. exact (mine_iteration_seen st url q t Hq Hin). }
  right. split; [exact Hin|].
  rewrite (mine_iteration_new st url q t Hq Hin). cbv zeta.
  destruct (robots_denies_quiet url t) as (Hs & Hg & _).
  destruct (outcome (denies url t)) as [[]|e]; triples.
  - project_events. rewrite Hs, Hg. cbn.
    split; [reflexivity|]. split; [left; reflexivity|]. split; [reflexivity|].
    exists []. rewrite app_nil_r. reflexivity.
  - pose proof (fetch_and_extract_spec url q ({[url]} ∪ seen_urls st) (collected st)
                  (clock (denies url t))) as Hf. cbv zeta in Hf.
    destruct Hf as (_ & Hev & Hout).
    destruct (get_events rt net fetcher url (clock (denies url t))) as [Hgs Hgg].
    project_events. rewrite Hs, Hg, Hev. project_events. rewrite Hgs, Hgg.
    split; [reflexivity|]. split; [right; reflexivity|].
    destruct (outcome (get rt net fetcher url (clock (denies url t)))) as [resp|e].
    + exact Hout.
    + rewrite Hout. exact I.
  - project_events. rewrite Hs, Hg.
    split; [reflexivity|]. split; [left; reflexivity|]. exact I.
Qed.

Lemma size_add_new (url : string) (seen : gset string) :
  url ∉ seen -> size ({[url]} ∪ seen) = S (size seen).
Proof.
  intros H. rewrite size_union by set_solver. rewrite size_singleton. reflexivity.
Qed.

(** The loop adds to [seen_urls] only URLs that were not in it, each once,
    and calls the fetcher only for URLs it has just added. *)
Lemma loop_no_refetch fuel : forall st t,
  let r := loop fuel st t in
  NoDup (seen_adds (events r)) /\
  (forall u, u ∈ seen_adds (events r) -> u ∉ seen_urls st) /\
  sublist (get_calls (events r)) (seen_adds (events r)).
Proof.
  induction fuel as [|fuel IH]; intros st t; cbv zeta.
  { cbn [mine_loop]. destruct (cond st); cbn;
      (split; [constructor | split; [intros u Hu; inversion Hu | constructor]]). }
  rewrite mine_loop_unfold. destruct (cond st) eqn:Hc.
  2:{ cbn. split; [constructor | split; [intros u Hu; inversion Hu | constructor]]. }
  destruct (loop_cond_true _ Hc) as (url & q & Hq & _).
  destruct (turn_summary st url q t Hq) as [[Hin Hr] | (Hin & Hs & Hg & Ho)].
  - rewrite Hr. cbv zeta. triples. cbn [app].
    exact (IH (mkFrontier q (seen_urls st) (collected st)) t).
  - destruct (turn st t) as [[[st'|e] t1] ev1]; triples; cbv zeta; triples.
    + rewrite events_triple in Hs, Hg. rewrite outcome_triple in Ho.
      destruct Ho as [Hseen _].
      destruct (IH st' t1) as (Hnd & Hnot & Hsub).
      project_events. rewrite Hs. cbn [app].
      assert (Hfresh : url ∉ seen_adds (events (loop fuel st' t1))).
      { intros Hu. apply Hnot in Hu. rewrite Hseen in Hu.
        apply Hu, elem_of_union_l, elem_of_singleton. reflexivity. }
      split; [constructor; assumption|]. split.
      * intros u Hu. apply elem_of_cons in Hu as [->|Hu]; [exact Hin|].
        apply Hnot in Hu. rewrite Hseen in Hu.
        intros Hu'. apply Hu, elem_of_union_r. exact Hu'.
      * destruct Hg as [-> | ->]; cbn [app]; [apply sublist_cons | apply sublist_skip];
          exact Hsub.
    + rewrite events_triple in Hs, Hg. rewrite Hs.
      split; [apply NoDup_singleton|]. split.
      * intros u Hu. apply list_elem_of_singleton in Hu. subst u. exact Hin.
      * destruct Hg as [-> | ->]; [apply sublist_nil_l | reflexivity].
Qed.

(** While the loop runs, [seen_urls] stays within the page budget: the
    URLs already in the set and those added since never exceed
    [max_pages], unless the set was larger to begin with. *)
Lemma loop_budget fuel : forall st t,
  let r := loop fuel st t in
  Z.of_nat (size (seen_urls st) + length (seen_adds (events r)))
    <= Z.max max_pages (Z.of_nat (size (seen_urls st))) /\
  (forall st', outcome r = Ret (Some st') ->
     cond st' = false /\
     size (seen_urls st') = (size (seen_urls st) + length (seen_adds (events r)))%nat).
Proof.
  induction fuel as [|fuel IH]; intros st t; cbv zeta.
  { cbn [mine_loop]. destruct (cond st) eqn:Hc; cbn.
    - split; [lia|]. intros st' [=].
    - split; [lia|]. intros st' [= <-]. split; [exact Hc | lia]. }
  rewrite mine_loop_unfold. destruct (cond st) eqn:Hc.
  2:{ cbn. split; [lia|]. intros st' [= <-]. split; [exact Hc | lia]. }
  destruct (loop_cond_true _ Hc) as (url & q & Hq & Hlt).
  destruct (turn_summary st url q t Hq) as [[Hin Hr] | (Hin & Hs & Hg & Ho)].
  - rewrite Hr. cbv zeta. triples. cbn [app].
    exact (IH (mkFrontier q (seen_urls st) (collected st)) t).
  - destruct (turn st t) as [[[st'|e] t1] ev1]; triples; cbv zeta; triples.
    + rewrite events_triple in Hs. rewrite outcome_triple in Ho.
      destruct Ho as [Hseen _].
      destruct (IH st' t1) as (Hb & Hfin).
      rewrite Hseen, (size_add_new _ _ Hin) in Hb, Hfin.
      project_events. rewrite Hs. cbn [app length].
      split; [lia|]. intros st'' Hst''. destruct (Hfin st'' Hst'') as [Hc' Hsz].
      split; [exact Hc' | lia].
    + rewrite events_triple in Hs. rewrite Hs. cbn [length].
      split; [lia|]. intros st'' [=].
Qed.

(** The loop ends: some bound on the number of turns is enough. *)
Lemma loop_terminates (n : nat) : forall q seen rows t,
  (Z.to_nat (max_pages - Z.of_nat (size seen)) <= n)%nat ->
  exists fuel, outcome (loop fuel (mkFrontier q seen rows) t) <> Ret None.
Proof.
  induction n as [|n IHn]; intros q; induction q as [|url q IHq];
    intros seen rows t Hn.
  - exists 0%nat. cbn. discriminate.
  - exists 0%nat. cbn [mine_loop]. unfold loop_cond. cbn [queue seen_urls].
    replace (Z.of_nat (size seen) <? max_pages) with false
      by (symmetry; apply Z.ltb_ge; lia). discriminate.
  - exists 0%nat. cbn. discriminate.
  - destruct (cond (mkFrontier (url :: q) seen rows)) eqn:Hc.
    2:{ exists 0%nat. rewrite mine_loop_done by exact Hc. discriminate. }
    destruct (loop_cond_true _ Hc) as (url' & q' & Hq & Hlt).
    cbn [queue seen_urls] in Hq, Hlt. injection Hq as <- <-.
    destruct (turn_summary (mkFrontier (url :: q) seen rows) url q t eq_refl)
      as [[Hin Hr] | (Hin & _ & _ & Ho)]; cbn [seen_urls collected] in *.
    + destruct (IHq seen rows t Hn) as [fuel Hf]. exists (S fuel).
      rewrite mine_loop_unfold, Hc, Hr. cbv zeta. triples. exact Hf.
    + destruct (turn (mkFrontier (url :: q) seen rows) t) as [[[st'|e] t1] ev1] eqn:Ht.
      * rewrite outcome_triple in Ho. destruct Ho as [Hseen _].
        destruct st' as [q2 seen2 rows2]. cbn [seen_urls] in Hseen. subst seen2.
        destruct (IHn q2 ({[url]} ∪ seen) rows2 t1) as [fuel Hf].
        { rewrite (size_add_new _ _ Hin). lia. }
        exists (S fuel). rewrite mine_loop_unfold, Hc, Ht. cbv zeta. triples. exact Hf.
      * exists 1%nat. rewrite mine_loop_unfold, Hc, Ht. triples. discriminate.
Qed.

(** Once the bound is enough, a larger one changes nothing. *)
Lemma loop_more_fuel fuel : forall st t fuel',
  outcome (loop fuel st t) <> Ret None -> (fuel <= fuel')%nat ->
  loop fuel' st t = loop fuel st t.
Proof.
  induction fuel as [|fuel IH]; intros st t fuel' Hout Hle.
  - destruct (cond st) eqn:Hc.
    + exfalso. apply Hout. cbn [mine_loop]. rewrite Hc. reflexivity.
    + rewrite !mine_loop_done by exact Hc. reflexivity.
  - destruct fuel' as [|fuel']; [lia|].
    rewrite !mine_loop_unfold in *. destruct (cond st); [|reflexivity].
    destruct (turn st t) as [[[st'|e] t1] ev1]; [|reflexivity].
    cbv zeta in *. rewrite outcome_triple in Hout.
    rewrite (IH st' t1 fuel' Hout ltac:(lia)). reflexivity.
Qed.

Lemma mine_target_unfold fuel t :
  run fuel t =
  let r := loop fuel (initial target) t in
  (match outcome r with
   | Ret st => Ret (collected <$> st)
   | Raise e => Raise e
   end, clock r, events r).
Proof.
  unfold mine_target, bind, ret. cbv zeta.
  destruct (loop fuel (initial target) t) as [[[st|e] t1] ev1]; triples;
    rewrite ?app_nil_r; reflexivity.
Qed.

(** After [k] turns that ended normally, the loop goes on from where they
    left it. *)
Lemma iterations_loop k : forall st t st' t' evs fuel,
  turns k st t = Some (st', t', evs) ->
  loop (k + fuel) st t =
  let r := loop fuel st' t' in (outcome r, clock r, evs ++ events r).
Proof.
  induction k as [|k IH]; intros st t st' t' evs fuel.
  - cbn [iterations]. intros [= <- <- <-]. cbn [Nat.add app]. cbv zeta.
    destruct (loop fuel st t) as [[r t1] ev1]. reflexivity.
  - cbn [iterations Nat.add]. rewrite mine_loop_unfold.
    destruct (cond st); [|discriminate].
    destruct (turn st t) as [[[st1|e] t1] ev1]; [|discriminate].
    destruct (turns k st1 t1) as [[[st2 t2] ev2]|] eqn:Hk; [|discriminate].
    intros [= <- <- <-]. rewrite (IH _ _ _ _ _ fuel Hk). cbv zeta. triples.
    rewrite app_assoc. reflexivity.
Qed.

(** C4. In a run of [mine_target] no URL is added to [seen_urls] twice,
    and [Fetcher.get] is called at most once per URL: the calls are made,
    in order, for URLs that were just added. This holds for every bound on
    the number of turns, hence at every point of the run. *)
Theorem mine_target_no_refetch (fuel t : nat) :
  let r := run fuel t in
  NoDup (seen_adds (events r)) /\
  NoDup (get_calls (events r)) /\
  sublist (get_calls (events r)) (seen_adds (events r)).
Proof.
  cbv zeta. rewrite mine_target_unfold. cbv zeta. triples.
  destruct (loop_no_refetch fuel (initial target) t) as (Hnd & _ & Hsub).
  split; [exact Hnd|]. split; [|exact Hsub].
  eapply sublist_NoDup; eassumption.
Qed.

(** C5. Whatever [max_pages], the target and the network are, the number
    of URLs added to [seen_urls] never exceeds [max_pages] (none is added
    when [max_pages] is not positive); when the loop ends normally the
    queue is empty or [seen_urls] has reached [max_pages]; and the loop
    does end: some number of turns is enough, and allowing more turns
    changes nothing. *)
Theorem mine_target_page_budget :
  (forall fuel t,
     Z.of_nat (length (seen_adds (events (run fuel t)))) <= Z.max 0 max_pages) /\
  (forall fuel t,
     match outcome (loop fuel (initial target) t) with
     | Ret (Some st') =>
         (queue st' = [] \/ max_pages <= Z.of_nat (size (seen_urls st'))) /\
         size (seen_urls st') = length (seen_adds (events (run fuel t))) /\
         Z.of_nat (size (seen_urls st')) <= Z.max 0 max_pages
     | _ => True
     end) /\
  (forall t, exists fuel,
     outcome (run fuel t) <> Ret None /\
     forall more, run (fuel + more) t = run fuel t).
Proof.
  split; [|split].
  - intros fuel t. rewrite mine_target_unfold. cbv zeta. triples.
    destruct (loop_budget fuel (initial target) t) as [Hb _].
    cbn [initial seen_urls] in Hb. rewrite size_empty in Hb. lia.
  - intros fuel t. rewrite mine_target_unfold. cbv zeta. triples.
    destruct (loop_budget fuel (initial target) t) as [Hb Hfin].
    cbn [initial seen_urls] in Hb, Hfin. rewrite size_empty in Hb, Hfin.
    destruct (outcome (loop fuel (initial target) t)) as [[st'|]|e]; try exact I.
    destruct (Hfin st' eq_refl) as [Hc Hsz]. cbn [Nat.add] in Hsz.
    split; [|split; [exact Hsz | lia]].
    unfold loop_cond in Hc. destruct (queue st'); [left; reflexivity|].
    right. apply Z.ltb_ge in Hc. exact Hc.
  - intros t.
    destruct (loop_terminates (Z.to_nat (max_pages - Z.of_nat (size (∅ : gset string))))
                (start_urls target) ∅ [] t ltac:(lia)) as [fuel Hf].
    fold (initial target) in Hf. exists fuel. split.
    + rewrite mine_target_unfold. cbv zeta. triples.
      destruct (outcome (loop fuel (initial target) t)) as [[st'|]|e];
        [discriminate | congruence | discriminate].
    + intros more. rewrite !mine_target_unfold. cbv zeta.
      rewrite (loop_more_fuel fuel (initial target) t (fuel + more) Hf ltac:(lia)).
      reflexivity.
Qed.

(** C7. When, after some turns of the loop, [Fetcher.get] raises for the
    URL being processed, [mine_target] raises that same exception: nothing
    catches it, the loop does not go on, and the rows collected so far are
    not returned. *)
Theorem mine_target_fetch_error_propagates
    (k t0 : nat) (st : Frontier) (t : nat) (evs : list event)
    (url : string) (q : list string) (e : exn) :
  turns k (initial target) t0 = Some (st, t, evs) ->
  queue st = url :: q ->
  url ∉ seen_urls st ->
  Z.of_nat (size (seen_urls st)) < max_pages ->
  outcome (denies url t) = Ret false ->
  outcome (get rt net fetcher url (clock (denies url t))) = Raise e ->
  forall fuel,
    outcome (run (k + S fuel) t0) = Raise e /\
    outcome (run (k + S fuel) t0) <> Ret (Some (collected st)) /\
    last (get_calls (events (run (k + S fuel) t0))) = Some url.
Proof.
  intros Hk Hq Hin Hlt Hd Hg fuel.
  rewrite mine_target_unfold. cbv zeta.
  rewrite (iterations_loop k _ _ _ _ _ (S fuel) Hk). cbv zeta. triples.
  rewrite mine_loop_unfold.
  assert (Hc : cond st = true).
  { unfold loop_cond. rewrite Hq. apply Z.ltb_lt. exact Hlt. }
  rewrite Hc, (mine_iteration_new st url q t Hq Hin). cbv zeta. rewrite Hd.
  pose proof (fetch_and_extract_spec url q ({[url]} ∪ seen_urls st) (collected st)
                (clock (denies url t))) as Hf. cbv zeta in Hf.
  destruct Hf as (_ & Hev & Hout). rewrite Hg in Hout.
  destruct (robots_denies_quiet url t) as (_ & Hdg & _).
  destruct (get_events rt net fetcher url (clock (denies url t))) as [_ Hgg].
  rewrite Hout. triples. split; [reflexivity|]. split; [discriminate|].
  rewrite Hev. project_events. rewrite Hdg, Hgg. cbn [app].
  rewrite last_snoc. reflexivity.
Qed.

(** C8. With [respect_robots] on, a new URL that [robots_allows] refuses
    is added to [seen_urls] (which grows by one) and dropped: the fetcher
    is not called, no request goes through the session, the collected rows
    stay as they were, and the loop goes on with the rest of the queue. *)
Theorem mine_target_robots_skip
    (st : Frontier) (t : nat) (url : string) (q : list string) :
  respect_robots = true ->
  queue st = url :: q ->
  url ∉ seen_urls st ->
  Z.of_nat (size (seen_urls st)) < max_pages ->
  outcome (robots_allows urlparse net url "" t) = Ret false ->
  let r := turn st t in
  let st' := mkFrontier q ({[url]} ∪ seen_urls st) (collected st) in
  outcome r = Ret st' /\
  size (seen_urls st') = S (size (seen_urls st)) /\
  seen_adds (events r) = [url] /\
  get_calls (events r) = [] /\
  session_gets (events r) = [] /\
  forall fuel,
    loop (S fuel) st t =
    let r' := loop fuel st' (clock r) in
    (outcome r', clock r', events r ++ events r').
Proof.
  intros Hrr Hq Hin Hlt Ha. cbv zeta.
  assert (Hd : outcome (denies url t) = Ret true).
  { rewrite (robots_denies_on url t Hrr). cbv zeta. triples. rewrite Ha. reflexivity. }
  assert (Ht : turn st t =
               (Ret (mkFrontier q ({[url]} ∪ seen_urls st) (collected st)),
                clock (denies url t),
                EvSeenAdd url :: events (denies url t)
                  ++ [EvPrint (skipping_msg target url)])).
  { rewrite (mine_iteration_new st url q t Hq Hin). cbv zeta. rewrite Hd. reflexivity. }
  destruct (robots_denies_quiet url t) as (Hs & Hg & Hsg).
  rewrite Ht. triples. cbn [seen_urls].
  split; [reflexivity|]. split; [apply size_add_new; exact Hin|].
  split; [project_events; rewrite Hs; reflexivity|].
  split; [project_events; rewrite Hg; reflexivity|].
  split.
  { change (session_gets (EvSeenAdd url :: ?l)) with (session_gets l).
    rewrite session_gets_app, Hsg. reflexivity. }
  intros fuel. rewrite mine_loop_unfold.
  assert (Hc : cond st = true).
  { unfold loop_cond. rewrite Hq. apply Z.ltb_lt. exact Hlt. }
  rewrite Hc, Ht. reflexivity.
Qed.

End CrawlFacts.

Lemma mine_target_fetch_error_propagates_witness :
  let r := mine_target UrlParse.urlparse steady one_page_site default_fetcher
             endless_target 3 true (1 + 1) 0%nat in
  outcome r = Raise (HTTPError 404 false) /\
  outcome r <> Ret (Some [[("page", VStr "https://h/p")]]) /\
  last (get_calls (events r)) = Some "https://h/px".
Proof.
  refine (mine_target_fetch_error_propagates UrlParse.urlparse steady one_page_site
            default_fetcher endless_target 3 true 1 0%nat
            (mkFrontier ["https://h/px"] ({["https://h/p"]} ∪ ∅)
               [[("page", VStr "https://h/p")]])
            2%nat
            [EvSeenAdd "https://h/p"; EvRequestsGet "https://h/robots.txt";
             EvPrint "[endless] Fetching: https://h/p"; EvCallGet "https://h/p";
             EvJitter; EvSessionGet "https://h/p"]
            "https://h/px" [] (HTTPError 404 false) _ _ _ _ _ _ 0%nat).
  - vm_compute. reflexivity.
  - reflexivity.
  - intros H. apply elem_of_union in H as [H|H].
    + apply elem_of_singleton in H. discriminate H.
    + apply elem_of_empty in H. exact H.
  - cbn [seen_urls]. rewrite size_union_alt, size_singleton.
    replace (size ((∅ : gset string) ∖ {["https://h/p"]})) with 0%nat; [lia|].
    symmetry. apply size_empty_iff. set_solver.
  - vm_compute. reflexivity.
  - vm_compute. reflexivity.
Defined.

Lemma mine_target_robots_skip_witness :
  let st := initial two_page_target in
  let r := mine_iteration UrlParse.urlparse steady (serves_robots robots_blank)
             default_fetcher two_page_target true st 0%nat in
  let st' := mkFrontier ["https://h/private/x"; "https://h/public"]
               ({["https://h/private/x"]} ∪ seen_urls st) (collected st) in
  outcome r = Ret st' /\
  size (seen_urls st') = S (size (seen_urls st)) /\
  seen_adds (events r) = ["https://h/private/x"] /\
  get_calls (events r) = [] /\
  session_gets (events r) = [] /\
  forall fuel,
    mine_loop UrlParse.urlparse steady (serves_robots robots_blank) default_fetcher
      two_page_target 10 true (S fuel) st 0%nat =
    let r' := mine_loop UrlParse.urlparse steady (serves_robots robots_blank)
                default_fetcher two_page_target 10 true fuel st' (clock r) in
    (outcome r', clock r', events r ++ events r').
Proof.
  refine (mine_target_robots_skip UrlParse.urlparse steady (serves_robots robots_blank)
            default_fetcher two_page_target 10 true (initial two_page_target) 0%nat
            "https://h/private/x" ["https://h/private/x"; "https://h/public"]
            eq_refl eq_refl _ _ _).
  - cbn [initial seen_urls]. apply not_elem_of_empty.
  - cbn [initial seen_urls]. rewrite size_empty. lia.
  - vm_compute. reflexivity.
Defined.

(** * Further properties *)

(** ** Fetcher.get: requests, sleeps, first decisive attempt *)

Section GetBounds.

Variable rt : Runtime.
Variable net : nat -> channel -> string -> answer.

(** The events of a turn whose sleeps were done and whose request was sent. *)
Lemma turn_projections delay url t :
  let ev := ((if Qeq_bool delay 0 then [] else [EvSleep delay]) ++ [EvJitter])
            ++ events (attempt_once net url t) in
  session_gets ev = [url] /\
  sleeps ev = (if Qeq_bool delay 0 then [] else [delay]) /\
  jitters ev = [()].
Proof.
  cbv zeta. rewrite attempt_once_events.
  destruct (Qeq_bool delay 0); repeat split; reflexivity.
Qed.

(** The loop sends one request per attempt it starts, never more than the
    attempts it was given, all to [url]. *)
Lemma get_attempts_requests self url attempts : forall delay t,
  let r := get_attempts rt net self url attempts delay t in
  exists n : nat,
    session_gets (events r) = replicate n url /\
    (n <= length attempts)%nat /\
    clock r = (t + n)%nat.
Proof.
  induction attempts as [|a rest IH]; intros delay t; cbv zeta.
  { exists 0%nat. cbn. repeat split; lia. }
  rewrite get_attempts_cons. cbv zeta.
  destruct (before_attempt_cases rt self delay t)
    as [Hb | (eb & hd' & _ & Hb & Hhd)]; cbv zeta in Hb; rewrite Hb; triples.
  2:{ exists 0%nat. cbn [length replicate]. split; [|split; lia].
      destruct Hhd as [-> | ->]; [|reflexivity].
      destruct (Qeq_bool delay 0); reflexivity. }
  destruct (turn_projections delay url t) as (Hturn & _). cbv zeta in Hturn.
  pose proof (attempt_once_clock net url t) as Hc.
  destruct (outcome (attempt_once net url t)) as [resp|e].
  - exists 1%nat. triples. rewrite Hturn, Hc. cbn [length].
    repeat split; lia.
  - destruct (caught e && negb (a =? max_retries self));
      [destruct (next_delay rt self a) as [d|e']|].
    + destruct (IH d (clock (attempt_once net url t))) as (n & Hs & Hn & Hcl).
      exists (S n). triples. rewrite app_assoc, session_gets_app, Hturn, Hs, Hcl, Hc.
      cbn [length]. repeat split; lia.
    + exists 1%nat. triples. rewrite Hturn, Hc. cbn [length]. repeat split; lia.
    + exists 1%nat. triples. rewrite Hturn, Hc. cbn [length]. repeat split; lia.
Qed.

(** X1. One call of [Fetcher.get] sends at most [max_retries] requests
    through the session, whatever the network answers, and every one of
    them is for the URL asked. *)
Theorem get_request_bound (self : Fetcher) (url : string) (t : nat) :
  let r := get rt net self url t in
  exists n : nat,
    session_gets (events r) = replicate n url /\
    Z.of_nat n <= Z.max 0 (max_retries self) /\
    clock r = (t + n)%nat.
Proof.
  cbv zeta. rewrite get_unfold. cbv zeta. triples.
  destruct (get_attempts_requests self url (py_range 1 (max_retries self + 1)) 0 t)
    as (n & Hs & Hn & Hc).
  cbv zeta in Hs, Hc. rewrite py_range_length in Hn.
  exists n. split; [exact Hs|]. split; [lia | exact Hc].
Qed.

Lemma attempt_once_returns url t resp :
  outcome (attempt_once net url t) = Ret resp ->
  net t ViaSession url = Answers resp /\
  transient_status (status_code resp) = false /\
  ~ (400 <= status_code resp < 600).
Proof.
  unfold attempt_once, bind, request, raise, lift, ret, raise_for_status, outcome.
  destruct (net t ViaSession url) as [r| | |]; cbn; try discriminate.
  destruct (transient_status (status_code r)) eqn:Ht; cbn; [discriminate|].
  destruct ((400 <=? status_code r) && (status_code r <? 600)) eqn:Hs; cbn;
    [discriminate|].
  intros [= <-]. split; [reflexivity|]. split; [exact Ht|].
  apply andb_false_iff in Hs. lia.
Qed.

Lemma get_attempts_returns self url attempts : forall delay t resp,
  outcome (get_attempts rt net self url attempts delay t) = Ret resp ->
  outcome (attempt_once net url
             (pred (clock (get_attempts rt net self url attempts delay t))))
  = Ret resp.
Proof.
  induction attempts as [|a rest IH]; intros delay t resp; [discriminate|].
  rewrite get_attempts_cons. cbv zeta.
  destruct (outcome (before_attempt rt self delay t)) as [u|eb]; triples;
    [|discriminate].
  pose proof (attempt_once_clock net url t) as Hc.
  destruct (outcome (attempt_once net url t)) as [resp'|e] eqn:Ho.
  - triples. intros [= <-]. rewrite Hc. exact Ho.
  - destruct (caught e && negb (a =? max_retries self));
      [destruct (next_delay rt self a) as [d|e']|]; triples;
      [apply IH | discriminate | discriminate].
Qed.

(** X2. A response that [Fetcher.get] returns is the answer to the last
    request it sent, and its status passed both checks: it is none of
    429, 500, 502, 503, 504 and lies outside 400..599. *)
Theorem get_returns_checked_response
    (self : Fetcher) (url : string) (t : nat) (resp : Response) :
  outcome (get rt net self url t) = Ret resp ->
  net (pred (clock (get rt net self url t))) ViaSession url = Answers resp /\
  (status_code resp ∉ [429; 500; 502; 503; 504]) /\
  ~ (400 <= status_code resp < 600).
Proof.
  rewrite get_unfold. cbv zeta. triples. intros H.
  apply get_attempts_returns in H. apply attempt_once_returns in H
    as (Hn & Ht & Hs).
  split; [exact Hn|]. split; [|exact Hs].
  unfold transient_status in Ht. apply bool_decide_eq_false in Ht. exact Ht.
Qed.

Lemma sleeps_app (a b : list event) : sleeps (a ++ b) = sleeps a ++ sleeps b.
Proof. unfold sleeps. apply omap_app. Qed.

Lemma jitters_app (a b : list event) : jitters (a ++ b) = jitters a ++ jitters b.
Proof. unfold jitters. apply omap_app. Qed.

(** Line 77 never gives less than half a second, so the delay it leaves is
    never the zero that line 63 skips. *)
Lemma next_delay_half self a d :
  next_delay rt self a = Ret d -> (1 # 2 <= d)%Q /\ Qeq_bool d 0 = false.
Proof.
  unfold next_delay. destruct (float_pow rt (backoff_factor self) (a - 1)) as [p|];
    [|discriminate].
  intros [= <-]. assert (H : (1 # 2 <= Qmax (1 # 2) p)%Q) by apply Q.le_max_l.
  split; [exact H|].
  destruct (Qeq_bool (Qmax (1 # 2) p) 0) eqn:E; [|reflexivity].
  apply Qeq_bool_eq in E. rewrite E in H. exfalso. revert H. unfold Qle. cbn. lia.
Qed.

(** The sleeps of the loop: the one for the delay it starts with, then in
    order what line 77 computed after the attempts; one jitter before each
    request. The loop leaves no event at all when its first sleep raises. *)
Lemma get_attempts_sleeps self url attempts : forall delay t,
  let r := get_attempts rt net self url attempts delay t in
  events r = [] \/
  exists ds : list Q,
    sleeps (events r) = (if Qeq_bool delay 0 then [] else [delay]) ++ ds /\
    map Ret ds = map (next_delay rt self) (take (length ds) attempts) /\
    length (jitters (events r)) = length (session_gets (events r)) /\
    (length ds <= length (session_gets (events r)) <= S (length ds))%nat.
Proof.
  induction attempts as [|a rest IH]; intros delay t; cbv zeta.
  { left. reflexivity. }
  rewrite get_attempts_cons. cbv zeta.
  destruct (before_attempt_cases rt self delay t)
    as [Hb | (eb & hd' & _ & Hb & Hhd)]; cbv zeta in Hb; rewrite Hb; triples.
  2:{ destruct Hhd as [-> | ->]; [right | left; reflexivity].
      exists []. rewrite app_nil_r.
      destruct (Qeq_bool delay 0); cbn; repeat split; lia. }
  destruct (turn_projections delay url t) as (Hg & Hs & Hj). cbv zeta in Hg, Hs, Hj.
  assert (Hend : exists ds : list Q,
    sleeps (((if Qeq_bool delay 0 then [] else [EvSleep delay]) ++ [EvJitter])
              ++ events (attempt_once net url t))
      = (if Qeq_bool delay 0 then [] else [delay]) ++ ds /\
    map Ret ds = map (next_delay rt self) (take (length ds) (a :: rest)) /\
    length (jitters (((if Qeq_bool delay 0 then [] else [EvSleep delay]) ++ [EvJitter])
              ++ events (attempt_once net url t)))
      = length (session_gets (((if Qeq_bool delay 0 then [] else [EvSleep delay])
              ++ [EvJitter]) ++ events (attempt_once net url t))) /\
    (length ds <= length (session_gets
        (((if Qeq_bool delay 0 then [] else [EvSleep delay]) ++ [EvJitter])
              ++ events (attempt_once net url t))) <= S (length ds))%nat).
  { exists []. rewrite Hg, Hs, Hj, app_nil_r. cbn. repeat split; lia. }
  destruct (outcome (attempt_once net url t)) as [resp|e]; triples;
    [right; exact Hend|].
  destruct (caught e && negb (a =? max_retries self));
    [destruct (next_delay rt self a) as [d|e'] eqn:Hd|]; triples;
    [|right; exact Hend|right; exact Hend].
  right. destruct (next_delay_half self a d Hd) as [_ Hnz].
  destruct (IH d (clock (attempt_once net url t)))
    as [Hnil | (ds' & Hs' & Hm & Hj' & Hn)]; cbv zeta in *.
  - rewrite Hnil, app_nil_r. exact Hend.
  - rewrite Hnz in Hs'. exists (d :: ds').
    rewrite app_assoc, sleeps_app, jitters_app, session_gets_app, Hg, Hs, Hj, Hs'.
    cbn [length app take map]. rewrite Hd, Hm, Hj'.
    repeat split; lia.
Qed.

(** X3. The backoff schedule of [Fetcher.get], whatever the runtime makes
    of the floating-point power and of the sleeps: one jitter sleep was
    done before every request that was sent; the backoff sleeps are, in
    order, the delays that line 77 computed after attempts 1, 2, ...
    ([max(0.5, backoff_factor ** (attempt - 1))] as the runtime evaluates
    it), none before the first request; there are as many of them as
    requests or one less; and none is shorter than half a second. *)
Theorem get_backoff_schedule (self : Fetcher) (url : string) (t : nat) :
  let r := get rt net self url t in
  let n := length (session_gets (events r)) in
  let ds := sleeps (events r) in
  length (jitters (events r)) = n /\
  (length ds <= n <= S (length ds))%nat /\
  map Ret ds
  = map (next_delay rt self) (take (length ds) (py_range 1 (max_retries self + 1))) /\
  Forall (fun d => (1 # 2 <= d)%Q) ds.
Proof.
  cbv zeta. rewrite get_unfold. cbv zeta. triples.
  change (session_gets (EvCallGet url :: ?l)) with (session_gets l).
  change (sleeps (EvCallGet url :: ?l)) with (sleeps l).
  change (jitters (EvCallGet url :: ?l)) with (jitters l).
  destruct (get_attempts_sleeps self url (py_range 1 (max_retries self + 1)) 0 t)
    as [Hnil | (ds & Hs & Hm & Hj & Hn)]; cbv zeta in *.
  { rewrite Hnil. cbn. repeat split; try lia. constructor. }
  change (Qeq_bool 0 0) with true in Hs. cbn [app] in Hs. rewrite Hs.
  split; [exact Hj|]. split; [exact Hn|]. split; [exact Hm|].
  clear Hs Hn Hj. revert Hm. generalize (take (length ds) (py_range 1 (max_retries self + 1))).
  induction ds as [|d ds IHds]; intros [|a l] Hm; try discriminate Hm; constructor.
  - injection Hm as Hd _. apply (next_delay_half self a d). symmetry. exact Hd.
  - injection Hm as _ Hm. apply (IHds l Hm).
Qed.

(** X4. If no sleep of the call raises, the first [k] attempts fail with a
    caught exception (timeout, connection error, HTTP error), with
    [k < max_retries], and the next one returns or fails with an exception
    of another class, then the call ends with the result of that attempt
    after exactly [k + 1] requests: a later success is returned, and an
    exception that is not caught is never retried. The sleeps do not raise
    when every jitter drawn is a length [time.sleep] accepts and the power
    of line 77 is computed, and accepted, after each of the [k] failures. *)
Theorem get_first_decisive_attempt
    (self : Fetcher) (url : string) (t k : nat) :
  Z.of_nat k < max_retries self ->
  (forall i : nat, (i <= k)%nat -> jitter_ok rt self (t + i)%nat) ->
  (forall i : nat, (i < k)%nat -> backoff_ok rt self (1 + Z.of_nat i)) ->
  (forall i : nat, (i < k)%nat -> exists e,
      outcome (attempt_once net url (t + i)%nat) = Raise e /\ caught e = true) ->
  (forall e, outcome (attempt_once net url (t + k)%nat) = Raise e ->
             caught e = false) ->
  let r := get rt net self url t in
  outcome r = outcome (attempt_once net url (t + k)%nat) /\
  session_gets (events r) = replicate (S k) url.
Proof.
  intros Hk Hjit Hback Hfail Hlast. cbv zeta. rewrite get_unfold. cbv zeta. triples.
  change (session_gets (EvCallGet url :: ?l)) with (session_gets l).
  destruct (get_attempts_run rt net self url k 1 0 t) as (Ho & Hs & _);
    [lia | left; reflexivity | exact Hjit | exact Hback | exact Hfail
    | right; exact Hlast |].
  split; [exact Ho | exact Hs].
Qed.

End GetBounds.

Lemma get_returns_checked_response_witness :
  flaky 2 (pred (clock (get steady (flaky 2) default_fetcher "https://h/x" 0%nat)))
    ViaSession "https://h/x" = Answers (plain_response 200) /\
  (status_code (plain_response 200) ∉ [429; 500; 502; 503; 504]) /\
  ~ (400 <= status_code (plain_response 200) < 600).
Proof.
  apply (get_returns_checked_response steady (flaky 2) default_fetcher "https://h/x" 0%nat
           (plain_response 200)).
  vm_compute. reflexivity.
Defined.

Lemma get_first_decisive_attempt_witness :
  let r := get steady (flaky 2) default_fetcher "https://h/x" 0%nat in
  outcome r = outcome (attempt_once (flaky 2) "https://h/x" (0 + 2)%nat) /\
  session_gets (events r) = replicate 3 "https://h/x".
Proof.
  apply (get_first_decisive_attempt steady (flaky 2) default_fetcher "https://h/x"
           0%nat 2%nat).
  - simpl. lia.
  - intros i Hi. split; reflexivity.
  - intros i Hi. eexists. split; reflexivity.
  - intros i Hi. exists (HTTPError 503 true).
    destruct i as [|[|i]]; [split; reflexivity | split; reflexivity | lia].
  - intros e. vm_compute. discriminate.
Defined.

Example get_breaks_once :
  let r := get steady broken default_fetcher "https://h/x" 0%nat in
  outcome r = Raise RequestException /\ session_gets (events r) = ["https://h/x"].
Proof. vm_compute. split; reflexivity. Qed.

Example get_flaky_sleeps :
  map Ret (sleeps (events (get steady (flaky 2) default_fetcher "https://h/x" 0%nat)))
  = [next_delay steady default_fetcher 1; next_delay steady default_fetcher 2].
Proof. reflexivity. Qed.

(** ** robots_allows: the request it sends, prefixes, blocks of other agents *)

(** X5. [robots_allows] sends exactly one request, outside the fetcher's
    session and without retry, to [/robots.txt] at the scheme and host of
    the URL; when [urlparse] rejects the URL it sends none and raises. *)
Theorem robots_allows_one_request
    (urlparse : string -> result ParseResult)
    (net : nat -> channel -> string -> answer)
    (url user_agent : string) (t : nat) :
  let r := robots_allows urlparse net url user_agent t in
  match urlparse url with
  | Ret parsed =>
      events r = [EvRequestsGet (scheme parsed ++ "://" ++ netloc parsed ++ "/robots.txt")%string]
      /\ clock r = S t
  | Raise e => events r = [] /\ clock r = t /\ outcome r = Raise e
  end.
Proof.
  cbv zeta. destruct (urlparse url) as [parsed|e] eqn:Hp.
  - rewrite (robots_allows_parsed _ _ _ _ _ _ Hp). split; reflexivity.
  - rewrite (robots_allows_unparsed _ _ _ _ _ _ Hp). repeat split; reflexivity.
Qed.

Lemma prefix_app_iff (p s : string) :
  String.prefix p s = true <-> exists r, s = (p ++ r)%string.
Proof.
  revert s. induction p as [|a p IH]; intros [|b s]; cbn [String.prefix].
  - split; [intros _; exists EmptyString; reflexivity | reflexivity].
  - split; [intros _; exists (String b s); reflexivity | reflexivity].
  - split; [discriminate | intros [r Hr]; discriminate Hr].
  - destruct (ascii_dec a b) as [->|Hne].
    + rewrite IH. split; intros [r Hr]; exists r.
      * rewrite Hr. reflexivity.
      * change (String b s = String b (p ++ r)%string) in Hr.
        injection Hr as Hr. exact Hr.
    + split; [discriminate|]. intros [r Hr].
      change (String b s = String a (p ++ r)%string) in Hr. congruence.
Qed.

(** X6. The decision over the collected prefixes: the path is refused
    exactly when some recorded [Disallow] value is non-empty and the path
    starts with it; an empty value never refuses anything. *)
Theorem path_allowed_false_iff (path : string) (disallows : list string) :
  path_allowed path disallows = false <->
  exists d r, d ∈ disallows /\ d <> "" /\ path = (d ++ r)%string.
Proof.
  unfold path_allowed. rewrite negb_false_iff.
  induction disallows as [|d ds IH]; cbn [existsb].
  - split; [discriminate|]. intros (d & r & Hd & _). inversion Hd.
  - rewrite orb_true_iff, IH, andb_true_iff, truthy_nonempty.
    unfold PyStr.startswith. rewrite prefix_app_iff. split.
    + intros [[Hne [r Hr]] | (d' & r & Hd & Hne & Hr)].
      * exists d, r. split; [left|]; auto.
      * exists d', r. split; [right|]; auto.
    + intros (d' & r & Hd & Hne & Hr). apply elem_of_cons in Hd as [->|Hd].
      * left. split; [exact Hne | eauto].
      * right. eauto.
Qed.

Lemma robots_line_other_agent user_agent line st :
  agent_line_matches user_agent line = false ->
  robots_line user_agent (false, []) line = Ret st -> st = (false, []).
Proof.
  unfold agent_line_matches, robots_line. cbn [andb].
  destruct (PyStr.truthy (PyStr.strip line)); cbn [negb orb andb];
    [|intros _ [= <-]; reflexivity].
  destruct (PyStr.startswith (PyStr.strip line) "#"); cbn [negb andb];
    [intros _ [= <-]; reflexivity|].
  destruct (PyStr.startswith (PyStr.lower (PyStr.strip line)) "user-agent:");
    cbn [andb]; [|intros _ [= <-]; reflexivity].
  destruct (after_colon (PyStr.strip line)) as [rest|e]; cbn [rbind];
    [|discriminate].
  intros -> [= <-]. reflexivity.
Qed.

Lemma robots_lines_other_agent user_agent lines : forall st,
  Forall (fun line => agent_line_matches user_agent line = false) lines ->
  robots_lines user_agent (false, []) lines = Ret st -> st = (false, []).
Proof.
  induction lines as [|line rest IH]; intros st Hall; cbn [robots_lines].
  - intros [= <-]. reflexivity.
  - apply Forall_cons in Hall as [Hl Hrest].
    destruct (robots_line user_agent (false, []) line) as [st1|e] eqn:E;
      cbn [rbind]; [|discriminate].
    apply (robots_line_other_agent _ _ _ Hl) in E. subst st1. apply IH. exact Hrest.
Qed.

(** X7. Rules written for other agents never apply: when no [User-agent]
    line of robots.txt is blank or names the queried agent, every URL of
    the site is allowed, whatever [Disallow] lines the file has. *)
Theorem robots_allows_other_agents_only
    (urlparse : string -> result ParseResult)
    (net : nat -> channel -> string -> answer)
    (url user_agent : string) (t : nat) (parsed : ParseResult) (resp : Response) :
  urlparse url = Ret parsed ->
  net t ViaRequests (robots_url parsed) = Answers resp ->
  Forall (fun line => agent_line_matches user_agent line = false)
         (PyStr.splitlines (text resp)) ->
  outcome (robots_allows urlparse net url user_agent t) = Ret true.
Proof.
  intros Hp Hn Hall. rewrite (robots_allows_parsed _ _ _ _ _ _ Hp). triples.
  unfold robots_verdict. rewrite Hn. unfold robots_decide.
  destruct (negb (status_code resp =? 200)); [reflexivity|].
  destruct (robots_lines user_agent (false, []) (PyStr.splitlines (text resp)))
    as [st|e] eqn:E; cbn [rbind]; [|reflexivity].
  apply (robots_lines_other_agent _ _ _ Hall) in E. subst st. reflexivity.
Qed.

Lemma robots_allows_other_agents_only_witness :
  outcome (robots_allows UrlParse.urlparse (serves_robots robots_other_agent)
             "https://h/private/x" "" 0%nat) = Ret true.
Proof.
  apply (robots_allows_other_agents_only UrlParse.urlparse
           (serves_robots robots_other_agent) "https://h/private/x" "" 0%nat
           (mkParseResult "https" "h" "/private/x" "" "" "")
           (mkResponse 200 robots_other_agent (Raise JSONDecodeError))).
  - vm_compute. reflexivity.
  - reflexivity.
  - apply (bool_decide_unpack _). vm_compute. exact I.
Defined.

(** ** parse_example_json: one row per item, or none at all *)

Lemma json_row_dict base_url fields :
  json_row base_url (VDict fields) = Ret (item_row base_url fields).
Proof. reflexivity. Qed.

Lemma json_row_not_dict base_url it :
  is_dict it = false -> json_row base_url it = Raise (AttributeError "get").
Proof. destruct it; cbn; intros H; first [reflexivity | discriminate H]. Qed.

Lemma rmap_json_rows base_url (fs : list (list (string * value))) :
  rmap (json_row base_url) (map VDict fs) = Ret (map (item_row base_url) fs).
Proof.
  induction fs as [|f fs IH]; [reflexivity|].
  cbn [map rmap]. rewrite json_row_dict. cbn [rbind]. rewrite IH. reflexivity.
Qed.

Lemma rmap_json_rows_bad base_url (its : list value) :
  Exists (fun it => is_dict it = false) its ->
  rmap (json_row base_url) its = Raise (AttributeError "get").
Proof.
  induction its as [|it its IH]; intros H; [inversion H|].
  cbn [rmap]. destruct (is_dict it) eqn:Hd.
  - destruct it; try discriminate Hd. rewrite json_row_dict. cbn [rbind].
    rewrite IH; [reflexivity|]. apply Exists_cons in H as [H|H]; [|exact H].
    cbn in H. discriminate H.
  - rewrite (json_row_not_dict _ _ Hd). reflexivity.
Qed.

(** X8. For a JSON object whose [items] is a list of objects,
    [parse_example_json] returns one row per item, in the order of the
    list; each row has the keys id, name, value, source, with [None] for a
    field the item lacks and the base URL as source. *)
Theorem parse_example_json_items
    (resp : Response) (base_url : string)
    (d : list (string * value)) (fs : list (list (string * value))) :
  json resp = Ret (VDict d) ->
  dict_lookup "items" d = Some (VList (map VDict fs)) ->
  parse_example_json resp base_url = Ret (map (item_row base_url) fs) /\
  Forall (fun r => row_keys r = ["id"; "name"; "value"; "source"]) (map (item_row base_url) fs).
Proof.
  intros Hj Hi. split.
  - unfold parse_example_json. rewrite Hj. cbn [rbind get_method]. rewrite Hi.
    cbn [default rbind iterate]. apply rmap_json_rows.
  - apply Forall_map, Forall_forall. intros f _. reflexivity.
Qed.

Lemma parse_example_json_items_witness :
  parse_example_json
    (json_response (VDict [("total", VInt 2);
                           ("items", VList (map VDict [[("id", VInt 1)];
                                                       [("name", VStr "b"); ("value", VNone)]]))]))
    "https://api"
  = Ret (map (item_row "https://api") [[("id", VInt 1)]; [("name", VStr "b"); ("value", VNone)]]) /\
  Forall (fun r => row_keys r = ["id"; "name"; "value"; "source"])
    (map (item_row "https://api") [[("id", VInt 1)]; [("name", VStr "b"); ("value", VNone)]]).
Proof.
  apply (parse_example_json_items _ "https://api"
           [("total", VInt 2);
            ("items", VList (map VDict [[("id", VInt 1)];
                                        [("name", VStr "b"); ("value", VNone)]]))]);
    reflexivity.
Defined.

(** X9. The rows are all or nothing: when one element of the [items] list
    is not an object (a number, a string, a list, null), the parser raises
    [AttributeError] and the rows of the other items are lost. *)
Theorem parse_example_json_bad_item
    (resp : Response) (base_url : string)
    (d : list (string * value)) (its : list value) :
  json resp = Ret (VDict d) ->
  dict_lookup "items" d = Some (VList its) ->
  Exists (fun it => is_dict it = false) its ->
  parse_example_json resp base_url = Raise (AttributeError "get").
Proof.
  intros Hj Hi Hbad. unfold parse_example_json. rewrite Hj.
  cbn [rbind get_method]. rewrite Hi. cbn [default rbind iterate].
  apply rmap_json_rows_bad. exact Hbad.
Qed.

Lemma parse_example_json_bad_item_witness :
  parse_example_json
    (json_response (VDict [("items", VList [VDict [("id", VInt 1)]; VInt 7])]))
    "https://api"
  = Raise (AttributeError "get").
Proof.
  apply (parse_example_json_bad_item _ "https://api"
           [("items", VList [VDict [("id", VInt 1)]; VInt 7])]
           [VDict [("id", VInt 1)]; VInt 7]);
    [reflexivity | reflexivity |].
  apply Exists_cons_tl, Exists_cons_hd. reflexivity.
Defined.

(** ** The example HTML parser and link discovery *)

Lemma rmap_Forall2 {A B} (f : A -> result B) (l : list A) : forall rs,
  rmap f l = Ret rs -> Forall2 (fun a b => f a = Ret b) l rs.
Proof.
  induction l as [|a l IH]; intros rs; cbn [rmap].
  - intros [= <-]. constructor.
  - destruct (f a) as [b|e] eqn:E; cbn [rbind]; [|discriminate].
    destruct (rmap f l) as [bs|e]; cbn [rbind]; [|discriminate].
    intros [= <-]. constructor; [exact E | apply IH; reflexivity].
Qed.

Section HtmlMore.

Variable urljoin : string -> string -> result string.

Lemma card_rows_shape base_url card rows :
  card_rows urljoin base_url card = Ret rows ->
  (length rows <= 1)%nat /\ Forall (well_formed_row base_url) rows.
Proof.
  unfold card_rows. destruct (card_href urljoin base_url card) as [href|e];
    cbn [rbind]; [|discriminate].
  destruct (truthy_opt (card_title card) || truthy_opt href
            || truthy_opt (card_price card)); intros [= <-]; cbn [length].
  - split; [lia|]. repeat constructor.
  - split; [lia | constructor].
Qed.

Lemma concat_rows_shape base_url (cards : list node) : forall rowss,
  Forall2 (fun c rs => card_rows urljoin base_url c = Ret rs) cards rowss ->
  (length (concat rowss) <= length cards)%nat /\
  Forall (well_formed_row base_url) (concat rowss).
Proof.
  induction cards as [|c cards IH]; intros rowss H; inversion H; subst; cbn.
  - split; [lia | constructor].
  - destruct (IH _ ltac:(eassumption)) as [Hl Hf].
    destruct (card_rows_shape _ _ _ ltac:(eassumption)) as [Hl1 Hf1].
    rewrite length_app. split; [lia|]. apply Forall_app. auto.
Qed.

(** X10. The HTML parser returns at most one row per selected card, in
    document order, and every row has the same four keys title, url,
    price, source, with the base URL as source. *)
Theorem parse_soup_rows (soup : node) (base_url : string) (rows : list row) :
  parse_soup urljoin soup base_url = Ret rows ->
  (length rows <= length (Soup.select sel_card soup))%nat /\
  Forall (fun r => row_keys r = ["title"; "url"; "price"; "source"] /\
                   dict_lookup "source" r = Some (VStr base_url)) rows.
Proof.
  unfold parse_soup.
  destruct (rmap (card_rows urljoin base_url) (Soup.select sel_card soup))
    as [rowss|e] eqn:E; cbn [rbind]; [|discriminate].
  intros [= <-]. apply rmap_Forall2 in E.
  exact (concat_rows_shape base_url _ _ E).
Qed.

End HtmlMore.

Lemma parse_soup_rows_witness :
  let rows := [[("title", VStr "Widget"); ("url", VNone); ("price", VNone);
                ("source", VStr "https://h")];
               [("title", VStr "Gadget"); ("url", VStr "https://h/p/1");
                ("price", VStr "9"); ("source", VStr "https://h")]] in
  (length rows <= length (Soup.select sel_card
      (document [card_with_title; card_without_fields; card_complete])))%nat /\
  Forall (fun r => row_keys r = ["title"; "url"; "price"; "source"] /\
                   dict_lookup "source" r = Some (VStr "https://h")) rows.
Proof.
  apply (parse_soup_rows join_root
           (document [card_with_title; card_without_fields; card_complete])
           "https://h").
  vm_compute. reflexivity.
Defined.

Lemma css_descendants_nodes : forall (n : node) (anc : list node),
  map snd (Css.descendants anc n) = Soup.descendants n.
Proof.
  fix IH 1. intros [s|name attrs cs] anc; [reflexivity|].
  cbn [Css.descendants Soup.descendants].
  remember (Elem name attrs cs :: anc) as anc' eqn:Hanc. clear Hanc.
  induction cs as [|c cs IHcs]; [reflexivity|].
  cbn [map]. rewrite map_app, IH, IHcs. reflexivity.
Qed.

Lemma filter_snd (sel : Css.selector) (p : node -> bool)
    (l : list (list node * node)) :
  (forall anc n, sel anc n = p n) ->
  map snd (filter (fun q => sel q.1 q.2 = true) l)
  = filter (fun d => p d = true) (map snd l).
Proof.
  intros H. induction l as [|[anc n] l IH]; [reflexivity|].
  cbn [map]. rewrite !filter_cons. cbn [fst snd]. rewrite H.
  destruct (decide (p n = true)); cbn [map]; rewrite IH; reflexivity.
Qed.

Lemma css_select_one_simple (sel : Css.selector) (p : node -> bool) (root : node) :
  (forall anc n, sel anc n = p n) ->
  Css.select_one sel root = Soup.select_one p root.
Proof.
  intros H. unfold Css.select_one, Soup.select_one, Soup.select.
  rewrite <- (css_descendants_nodes root []), <- (filter_snd sel p _ H).
  destruct (filter _ _); reflexivity.
Qed.

(** The third alternative of the selector list adds nothing to the second. *)
Lemma sel_next_simple (anc : list node) (n : node) :
  sel_next anc n = sel_next_link n.
Proof.
  unfold sel_next, sel_next_link, Css.either, Css.simple, Css.inside,
    Soup.both, Soup.either.
  destruct (Soup.tag "a" n); cbn [andb orb]; [|reflexivity].
  destruct (Css.attr_is_word "rel" "next" n); cbn [orb]; [reflexivity|].
  destruct (Soup.cls "next" n); reflexivity.
Qed.

Section DiscoverFacts.

Variable urljoin : string -> string -> result string.
Variable BeautifulSoup : string -> node.

(** X11. Link discovery returns at most one URL: none when the page has
    no [a] element with [rel="next"] or class [next], or when the first
    such element (in document order) has no non-empty [href]; otherwise
    the [href] of that first element joined to the base URL. Whether the
    link sits inside a [.pagination] element makes no difference. *)
Theorem discover_next_first_link (resp : Response) (base_url : string) :
  discover_next_example_html urljoin BeautifulSoup resp base_url =
  match Soup.select_one sel_next_link (BeautifulSoup (text resp)) with
  | None => Ret []
  | Some el =>
      match Soup.attr "href" el with
      | None | Some EmptyString => Ret []
      | Some h => match urljoin base_url h with
                  | Ret u => Ret [u]
                  | Raise e => Raise e
                  end
      end
  end.
Proof.
  unfold discover_next_example_html.
  rewrite (css_select_one_simple sel_next sel_next_link _ sel_next_simple).
  destruct (Soup.select_one sel_next_link (BeautifulSoup (text resp))) as [el|];
    [|reflexivity].
  destruct (Soup.attr "href" el) as [[|c h]|]; [reflexivity| |reflexivity].
  cbn [PyStr.truthy]. destruct (urljoin base_url (String c h)); reflexivity.
Qed.

End DiscoverFacts.

Example discover_next_in_pagination :
  discover_next_example_html join_root (fun _ => page_with_next)
    (plain_response 200) "https://h" = Ret ["https://h/p/2"].
Proof. vm_compute. reflexivity. Qed.

(** ** The crawl loop: requests, robots off, order of the visits *)

Lemma requests_gets_app (a b : list event) :
  requests_gets (a ++ b) = requests_gets a ++ requests_gets b.
Proof. unfold requests_gets. apply omap_app. Qed.

Lemma session_gets_add u l : session_gets (EvSeenAdd u :: l) = session_gets l.
Proof. reflexivity. Qed.

Lemma requests_gets_add u l : requests_gets (EvSeenAdd u :: l) = requests_gets l.
Proof. reflexivity. Qed.

Lemma session_gets_print m l : session_gets (EvPrint m :: l) = session_gets l.
Proof. reflexivity. Qed.

Lemma requests_gets_print m l : requests_gets (EvPrint m :: l) = requests_gets l.
Proof. reflexivity. Qed.

Lemma session_gets_nil : session_gets [] = [].
Proof. reflexivity. Qed.

Lemma requests_gets_nil : requests_gets [] = [].
Proof. reflexivity. Qed.

Ltac project_requests :=
  repeat first
    [ rewrite session_gets_nil | rewrite requests_gets_nil
    | rewrite session_gets_add | rewrite requests_gets_add
    | rewrite session_gets_app | rewrite requests_gets_app
    | rewrite session_gets_print | rewrite requests_gets_print ].

Lemma get_attempts_no_robots_request rt net self url attempts : forall delay t,
  requests_gets (events (get_attempts rt net self url attempts delay t)) = [].
Proof.
  induction attempts as [|a rest IH]; intros delay t; [reflexivity|].
  rewrite get_attempts_cons. cbv zeta.
  destruct (before_attempt_spec rt self delay t) as (_ & Hev & _). cbv zeta in Hev.
  apply only_sleeps_quiet in Hev as (_ & _ & Hr).
  destruct (outcome (before_attempt rt self delay t)) as [u|eb]; triples;
    [|exact Hr].
  assert (Hturn : requests_gets
            (events (before_attempt rt self delay t)
               ++ events (attempt_once net url t)) = []).
  { rewrite requests_gets_app, Hr, attempt_once_events. reflexivity. }
  destruct (outcome (attempt_once net url t)) as [resp|e]; triples; [exact Hturn|].
  destruct (caught e && negb (a =? max_retries self));
    [destruct (next_delay rt self a) as [d|e']|]; triples;
    [|exact Hturn|exact Hturn].
  rewrite app_assoc, requests_gets_app, Hturn, IH. reflexivity.
Qed.

(** The requests of one call of the fetcher. *)
Lemma get_requests rt net self url t :
  requests_gets (events (get rt net self url t)) = [] /\
  (length (session_gets (events (get rt net self url t)))
   <= Z.to_nat (max_retries self))%nat.
Proof.
  rewrite get_unfold. cbv zeta. triples.
  change (requests_gets (EvCallGet url :: ?l)) with (requests_gets l).
  change (session_gets (EvCallGet url :: ?l)) with (session_gets l).
  split; [apply get_attempts_no_robots_request|].
  destruct (get_attempts_requests rt net self url (py_range 1 (max_retries self + 1)) 0 t)
    as (n & Hs & Hn & _). cbv zeta in Hs. rewrite Hs, length_replicate.
  rewrite py_range_length in Hn. lia.
Qed.

Section CrawlMore.

Variable urlparse : string -> result ParseResult.
Variable rt : Runtime.
Variable net : nat -> channel -> string -> answer.
Variable fetcher : Fetcher.
Variable target : Target.
Variable max_pages : Z.
Variable respect_robots : bool.

Local Abbreviation turn := (mine_iteration urlparse rt net fetcher target respect_robots).
Local Abbreviation loop := (mine_loop urlparse rt net fetcher target max_pages respect_robots).
Local Abbreviation denies := (robots_denies urlparse net respect_robots).
Local Abbreviation extract := (fetch_and_extract urlparse rt net fetcher target).
Local Abbreviation cond := (loop_cond max_pages).
Local Abbreviation run := (mine_target urlparse rt net fetcher target max_pages respect_robots).

Lemma robots_denies_requests url t :
  (length (requests_gets (events (denies url t))) <= 1)%nat /\
  (respect_robots = false -> requests_gets (events (denies url t)) = []).
Proof.
  unfold robots_denies. destruct respect_robots; [|split; [cbn; lia | reflexivity]].
  split; [|discriminate]. unfold bind.
  destruct (urlparse url) as [parsed|e] eqn:Hp.
  - rewrite (robots_allows_parsed _ _ _ _ _ _ Hp). cbn. lia.
  - rewrite (robots_allows_unparsed _ _ _ _ _ _ Hp). cbn. lia.
Qed.

(** The requests of one turn of the loop for a new URL. *)
Lemma turn_requests st url q t :
  queue st = url :: q -> url ∉ seen_urls st ->
  let r := turn st t in
  (length (session_gets (events r)) <= Z.to_nat (max_retries fetcher))%nat /\
  (length (requests_gets (events r)) <= 1)%nat /\
  (respect_robots = false -> requests_gets (events r) = []).
Proof.
  intros Hq Hin. cbv zeta. rewrite (mine_iteration_new urlparse rt net fetcher target respect_robots st url q t Hq Hin).
  cbv zeta.
  destruct (robots_denies_quiet urlparse net respect_robots url t) as (_ & _ & Hds).
  destruct (robots_denies_requests url t) as [Hdr Hdoff].
  destruct (outcome (denies url t)) as [[]|e]; triples.
  - project_requests. rewrite Hds. cbn [app length].
    rewrite !app_nil_r. split; [lia|]. split; [exact Hdr | exact Hdoff].
  - pose proof (fetch_and_extract_spec urlparse rt net fetcher target url q
                  ({[url]} ∪ seen_urls st) (collected st) (clock (denies url t)))
      as Hf. cbv zeta in Hf. destruct Hf as (_ & Hev & _).
    destruct (get_requests rt net fetcher url (clock (denies url t))) as [Hgr Hgs].
    project_requests. rewrite Hds, Hev. project_requests.
    rewrite Hgr, app_nil_r. cbn [app]. split; [exact Hgs|].
    split; [exact Hdr | exact Hdoff].
  - project_requests. rewrite Hds. cbn [length]. split; [lia|].
    split; [exact Hdr | exact Hdoff].
Qed.

(** Per URL added to [seen_urls], the loop sends at most [max_retries]
    requests through the session and at most one for robots.txt. *)
Lemma loop_requests fuel : forall st t,
  let r := loop fuel st t in
  (length (session_gets (events r))
   <= Z.to_nat (max_retries fetcher) * length (seen_adds (events r)))%nat /\
  (length (requests_gets (events r)) <= length (seen_adds (events r)))%nat /\
  (respect_robots = false -> requests_gets (events r) = []).
Proof.
  induction fuel as [|fuel IH]; intros st t; cbv zeta.
  { cbn [mine_loop]. destruct (cond st); cbn; (split; [lia | split; [lia | reflexivity]]). }
  rewrite mine_loop_unfold. destruct (cond st) eqn:Hc.
  2:{ cbn. split; [lia | split; [lia | reflexivity]]. }
  destruct (loop_cond_true _ _ Hc) as (url & q & Hq & _).
  destruct (turn_summary urlparse rt net fetcher target respect_robots st url q t Hq)
    as [[Hin Hr] | (Hin & Hs & _ & _)].
  - rewrite Hr. cbv zeta. triples. cbn [app].
    exact (IH (mkFrontier q (seen_urls st) (collected st)) t).
  - destruct (turn_requests st url q t Hq Hin) as (Hts & Htr & Hoff).
    cbv zeta in Hts, Htr, Hoff.
    destruct (turn st t) as [[[st'|e] t1] ev1]; triples; cbv zeta; triples;
      rewrite events_triple in Hs, Hts, Htr, Hoff.
    + destruct (IH st' t1) as (IHs & IHr & IHoff).
      rewrite session_gets_app, requests_gets_app, seen_adds_app, !length_app, Hs.
      cbn [length]. split; [lia|]. split; [lia|].
      intros Hrr. rewrite (Hoff Hrr), (IHoff Hrr). reflexivity.
    + rewrite Hs. cbn [length]. split; [lia|]. split; [lia | exact Hoff].
Qed.

(** The cost of a crawl in requests. *)
Lemma crawl_cost (fuel t : nat) :
  let r := run fuel t in
  Z.of_nat (length (session_gets (events r)))
    <= Z.max 0 max_pages * Z.max 0 (max_retries fetcher) /\
  Z.of_nat (length (requests_gets (events r))) <= Z.max 0 max_pages.
Proof.
  cbv zeta. rewrite mine_target_unfold. cbv zeta. triples.
  destruct (loop_requests fuel (initial target) t) as (Hs & Hr & _).
  destruct (loop_budget urlparse rt net fetcher target max_pages respect_robots
              fuel (initial target) t) as [Hb _].
  cbv zeta in Hs, Hr, Hb.
  cbn [initial seen_urls] in Hb. rewrite size_empty in Hb.
  split; [nia | lia].
Qed.

(** X12. The cost of a crawl is bounded before it starts: [mine_target]
    calls the fetcher at most [max_pages] times, sends at most
    [max_pages * max_retries] requests through the session and at most
    [max_pages] requests for robots.txt. *)
Theorem mine_target_request_bound (fuel t : nat) :
  let r := mine_target urlparse rt net fetcher target max_pages respect_robots fuel t in
  Z.of_nat (length (get_calls (events r))) <= Z.max 0 max_pages /\
  Z.of_nat (length (session_gets (events r)))
    <= Z.max 0 max_pages * Z.max 0 (max_retries fetcher) /\
  Z.of_nat (length (requests_gets (events r))) <= Z.max 0 max_pages.
Proof.
  cbv zeta. split; [|exact (crawl_cost fuel t)].
  rewrite mine_target_unfold. cbv zeta. triples.
  destruct (loop_budget urlparse rt net fetcher target max_pages respect_robots
              fuel (initial target) t) as [Hb _].
  destruct (loop_no_refetch urlparse rt net fetcher target max_pages respect_robots
              fuel (initial target) t) as (_ & _ & Hsub).
  cbv zeta in Hb, Hsub. apply sublist_length in Hsub.
  cbn [initial seen_urls] in Hb. rewrite size_empty in Hb. lia.
Qed.

(** X13. Nothing to do: with no start URL, or with [max_pages] zero or
    negative, [mine_target] returns the empty list at once, without a
    request, a sleep or a line printed. *)
Theorem mine_target_nothing_to_do (fuel t : nat) :
  start_urls target = [] \/ max_pages <= 0 ->
  mine_target urlparse rt net fetcher target max_pages respect_robots fuel t
  = (Ret (Some []), t, []).
Proof.
  intros H. rewrite mine_target_unfold. cbv zeta.
  rewrite mine_loop_done; [reflexivity|].
  unfold loop_cond, initial. cbn [queue seen_urls].
  destruct H as [-> | H]; [reflexivity|].
  destruct (start_urls target); [reflexivity|].
  rewrite size_empty. apply Z.ltb_ge. lia.
Qed.

Hypothesis no_discovery : discover_next_urls target = None.

Lemma turn_no_discovery st url q t st' :
  queue st = url :: q ->
  outcome (turn st t) = Ret st' -> queue st' = q.
Proof.
  intros Hq. destruct (decide (url ∈ seen_urls st)) as [Hin|Hin].
  { rewrite (mine_iteration_seen urlparse rt net fetcher target respect_robots st url q t Hq Hin). triples.
    intros [= <-]. reflexivity. }
  rewrite (mine_iteration_new urlparse rt net fetcher target respect_robots st url q t Hq Hin). cbv zeta.
  destruct (outcome (denies url t)) as [[]|e]; triples; try discriminate.
  - intros [= <-]. reflexivity.
  - unfold fetch_and_extract, bind, emit, lift, ret. rewrite no_discovery.
    destruct (get rt net fetcher url (clock (denies url t))) as [[[resp|e] t1] ev1];
      triples; [|discriminate].
    destruct (base_url_of urlparse url) as [base|e]; triples; [|discriminate].
    destruct (parser target resp base) as [items|e]; triples; [|discriminate].
    intros [= <-]. reflexivity.
Qed.

(** Without discovery the queue only shrinks, so the URLs are added to
    [seen_urls] in the order of their first occurrence in the queue. *)
Lemma loop_in_order fuel : forall st t,
  let r := loop fuel st t in
  match outcome r with
  | Ret (Some st') =>
      first_seen (seen_urls st) (queue st)
      = seen_adds (events r) ++ first_seen (seen_urls st') (queue st')
  | _ => seen_adds (events r) `prefix_of` first_seen (seen_urls st) (queue st)
  end.
Proof.
  induction fuel as [|fuel IH]; intros st t; cbv zeta.
  { cbn [mine_loop]. destruct (cond st); cbn; [apply prefix_nil | reflexivity]. }
  rewrite mine_loop_unfold. destruct (cond st) eqn:Hc; [|reflexivity].
  destruct (loop_cond_true _ _ Hc) as (url & q & Hq & _).
  pose proof (turn_no_discovery st url q t) as Hqueue.
  destruct (turn_summary urlparse rt net fetcher target respect_robots st url q t Hq)
    as [[Hin Hr] | (Hin & Hs & _ & Ho)].
  - rewrite Hr. cbv zeta. triples. cbn [app]. rewrite Hq. cbn [first_seen].
    rewrite bool_decide_eq_true_2 by exact Hin.
    exact (IH (mkFrontier q (seen_urls st) (collected st)) t).
  - rewrite Hq. cbn [first_seen]. rewrite bool_decide_eq_false_2 by exact Hin.
    destruct (turn st t) as [[[st'|e] t1] ev1]; triples; cbv zeta; triples;
      rewrite events_triple in Hs; rewrite outcome_triple in Ho, Hqueue.
    + destruct Ho as [Hseen _]. specialize (Hqueue st' Hq eq_refl).
      specialize (IH st' t1). cbv zeta in IH. rewrite Hseen, Hqueue in IH.
      rewrite seen_adds_app, Hs. cbn [app].
      destruct (outcome (loop fuel st' t1)) as [[st''|]|e'].
      * rewrite IH. reflexivity.
      * apply prefix_cons. exact IH.
      * apply prefix_cons. exact IH.
    + rewrite Hs. apply prefix_cons, prefix_nil.
Qed.

(** X14. For a target without link discovery, the start URLs are visited
    in the order given, a repeated URL only at its first occurrence: at
    any point of the run the URLs added so far are a prefix of that list,
    and a run that ends normally has added exactly its first [max_pages]
    entries. *)
Theorem mine_target_start_urls_in_order (fuel t : nat) :
  let r := mine_target urlparse rt net fetcher target max_pages respect_robots fuel t in
  seen_adds (events r) `prefix_of` first_seen ∅ (start_urls target) /\
  (forall rows, outcome r = Ret (Some rows) ->
     seen_adds (events r)
     = take (Z.to_nat max_pages) (first_seen ∅ (start_urls target))).
Proof.
  cbv zeta. rewrite mine_target_unfold. cbv zeta. triples.
  pose proof (loop_in_order fuel (initial target) t) as Hord.
  destruct (loop_budget urlparse rt net fetcher target max_pages respect_robots
              fuel (initial target) t) as [Hb Hfin].
  cbv zeta in Hord, Hb, Hfin. cbn [initial seen_urls queue] in Hord, Hb, Hfin.
  rewrite size_empty in Hb, Hfin.
  destruct (outcome (loop fuel (initial target) t)) as [[st'|]|e].
  - split; [rewrite Hord; apply prefix_app_r; reflexivity|].
    intros rows _. destruct (Hfin st' eq_refl) as [Hc Hsz]. cbn [Nat.add] in Hsz.
    rewrite Hord. unfold loop_cond in Hc. destruct (queue st') as [|u q'] eqn:Hq'.
    + cbn [first_seen]. rewrite app_nil_r, take_ge; [reflexivity | lia].
    + apply Z.ltb_ge in Hc.
      replace (Z.to_nat max_pages) with (length (seen_adds (events
        (loop fuel (initial target) t)))) by lia.
      rewrite take_app_length. reflexivity.
  - split; [exact Hord | discriminate].
  - split; [exact Hord | discriminate].
Qed.

End CrawlMore.

(** X15. With [respect_robots] off, a crawl never asks for robots.txt. *)
Theorem mine_target_robots_off
    (urlparse : string -> result ParseResult) (rt : Runtime)
    (net : nat -> channel -> string -> answer)
    (fetcher : Fetcher) (target : Target) (max_pages : Z) (fuel t : nat) :
  requests_gets
    (events (mine_target urlparse rt net fetcher target max_pages false fuel t)) = [].
Proof.
  rewrite mine_target_unfold. cbv zeta. triples.
  apply (loop_requests urlparse rt net fetcher target max_pages false fuel
           (initial target) t). reflexivity.
Qed.

Lemma mine_target_nothing_to_do_witness :
  mine_target UrlParse.urlparse steady echo_site default_fetcher endless_target 0 true
    5 0%nat = (Ret (Some []), 0%nat, []).
Proof.
  apply mine_target_nothing_to_do. right. simpl. lia.
Defined.

Lemma mine_target_start_urls_in_order_witness :
  let r := mine_target UrlParse.urlparse steady echo_site default_fetcher list_target 2 true
             9 0%nat in
  seen_adds (events r) `prefix_of` first_seen ∅ (start_urls list_target) /\
  (forall rows, outcome r = Ret (Some rows) ->
     seen_adds (events r)
     = take (Z.to_nat 2) (first_seen ∅ (start_urls list_target))).
Proof.
  apply (mine_target_start_urls_in_order UrlParse.urlparse steady echo_site default_fetcher
           list_target 2 true).
  reflexivity.
Defined.

Example list_target_order :
  let r := mine_target UrlParse.urlparse steady echo_site default_fetcher list_target 10 true
             9 0%nat in
  seen_adds (events r) = ["https://h/a"; "https://h/b"; "https://h/c"] /\
  first_seen ∅ (start_urls list_target) = ["https://h/a"; "https://h/b"; "https://h/c"].
Proof. vm_compute. split; reflexivity. Qed.

Example main_demo :
  outcome (main UrlParse.urlparse join_root demo_soup json_dump_ok csv_dump_ok steady demo_site 5 0%nat)
  = Ret (Some (mkOutput
      [[("title", VStr "Gadget"); ("url", VStr "https://www.tesla.com/p/1");
        ("price", VStr "9"); ("source", VStr "https://www.tesla.com")];
       [("id", VInt 1); ("name", VStr "a"); ("value", VNone);
        ("source", VStr "https://example.com")];
       [("id", VInt 2); ("name", VNone); ("value", VNone);
        ("source", VStr "https://example.com")]]
      (Some (["id"; "name"; "price"; "source"; "title"; "url"; "value"],
             [[VStr ""; VStr ""; VStr "9"; VStr "https://www.tesla.com";
               VStr "Gadget"; VStr "https://www.tesla.com/p/1"; VStr ""];
              [VInt 1; VStr "a"; VStr ""; VStr "https://example.com";
               VStr ""; VStr ""; VNone];
              [VInt 2; VNone; VStr ""; VStr "https://example.com";
               VStr ""; VStr ""; VNone]])))).
Proof. vm_compute. reflexivity. Qed.

Example main_demo_api_down :
  outcome (main UrlParse.urlparse join_root demo_soup json_dump_ok csv_dump_ok steady demo_site_api_down 5 0%nat)
  = Raise (HTTPError 500 true).
Proof. vm_compute. reflexivity. Qed.

Example main_demo_surrogate :
  let m := main UrlParse.urlparse join_root demo_soup json_dump_surrogate csv_dump_ok
             steady demo_site 5 0%nat in
  outcome m = Raise (UnicodeEncodeError "surrogates not allowed") /\
  last (events m) = Some (EvSessionGet "https://example.com/api/items?page=1").
Proof. vm_compute. split; reflexivity. Qed.

(** ** write_csv: the table that is written *)

Lemma lookup_map {A B} (f : A -> B) (l : list A) : forall i,
  map f l !! i = f <$> (l !! i).
Proof.
  induction l as [|a l IH]; intros [|i]; cbn; try reflexivity. apply IH.
Qed.

Lemma elem_of_all_keys (k : string) (rows : list row) :
  k ∈ concat (map row_keys rows) <-> exists r, r ∈ rows /\ k ∈ row_keys r.
Proof.
  induction rows as [|r rows IH]; cbn [map concat].
  - split; [intros H; inversion H | intros (r & H & _); inversion H].
  - rewrite elem_of_app, IH. split.
    + intros [H | (r' & Hr & Hk)].
      * exists r. split; [left | exact H].
      * exists r'. split; [right; exact Hr | exact Hk].
    + intros (r' & Hr & Hk). apply elem_of_cons in Hr as [-> | Hr];
        [left; exact Hk | right; eauto].
Qed.

Lemma csv_keys_spec (rows : list row) :
  StronglySorted String.le (csv_keys rows) /\
  NoDup (csv_keys rows) /\
  (forall k, k ∈ csv_keys rows <-> exists r, r ∈ rows /\ k ∈ row_keys r).
Proof.
  unfold csv_keys.
  pose proof (merge_sort_Permutation String.le
                (remove_dups (concat (map row_keys rows)))) as Hp.
  split; [apply StronglySorted_merge_sort; apply _|]. split.
  - rewrite Hp. apply NoDup_remove_dups.
  - intros k. rewrite Hp, elem_of_remove_dups. apply elem_of_all_keys.
Qed.

(** X16. [write_csv] writes nothing for an empty list of rows. Otherwise
    the header holds every key that occurs in some row, each once, in
    lexicographic order; there is one line per row, in the order of the
    rows, with one cell per column: the value the row has for that key,
    or the empty string when the row lacks the key. *)
Theorem write_csv_table (rows : list row) :
  match write_csv rows with
  | None => rows = []
  | Some (header, lines) =>
      rows <> [] /\
      StronglySorted String.le header /\
      NoDup header /\
      (forall k, k ∈ header <-> exists r, r ∈ rows /\ k ∈ row_keys r) /\
      length lines = length rows /\
      (forall (i : nat) (r : row),
         rows !! i = Some r ->
         exists line,
           lines !! i = Some line /\
           length line = length header /\
           forall (j : nat) (k : string),
             header !! j = Some k ->
             line !! j = Some (default (VStr "") (dict_lookup k r)))
  end.
Proof.
  destruct rows as [|r0 rows0] eqn:E; [reflexivity|]. rewrite <- E.
  assert (Hw : write_csv rows
               = Some (csv_keys rows, map (csv_line (csv_keys rows)) rows))
    by (rewrite E; reflexivity).
  rewrite Hw. destruct (csv_keys_spec rows) as (Hs & Hn & Hk).
  split; [rewrite E; discriminate|]. split; [exact Hs|]. split; [exact Hn|].
  split; [exact Hk|]. split; [apply length_map|].
  intros i r Hr. exists (csv_line (csv_keys rows) r).
  split; [rewrite lookup_map, Hr; reflexivity|].
  unfold csv_line. split; [apply length_map|].
  intros j k Hj. rewrite lookup_map, Hj. reflexivity.
Qed.

Example write_csv_heterogeneous :
  write_csv [[("a", VInt 1); ("b", VInt 2)]; [("c", VInt 4); ("a", VInt 3)]]
  = Some (["a"; "b"; "c"],
          [[VInt 1; VInt 2; VStr ""]; [VInt 3; VStr ""; VInt 4]]).
Proof. vm_compute. reflexivity. Qed.

(** ** main: the loop over the targets *)

Section MainFacts.

Variable urlparse : string -> result ParseResult.
Variable rt : Runtime.
Variable net : nat -> channel -> string -> answer.
Variable fetcher : Fetcher.
Variable max_pages : Z.
Variable respect_robots : bool.
Variable fuel : nat.

Local Abbreviation crawl := (fun tg => mine_target urlparse rt net fetcher tg max_pages respect_robots fuel).
Local Abbreviation crawl_all := (mine_all urlparse rt net fetcher max_pages respect_robots fuel).

Lemma mine_all_cons tg rest acc t :
  crawl_all (tg :: rest) acc t =
  match outcome (crawl tg t) with
  | Ret (Some rows) =>
      let r := crawl_all rest (acc ++ rows) (clock (crawl tg t)) in
      (outcome r, clock r, events (crawl tg t) ++ events r)
  | Ret None => (Ret None, clock (crawl tg t), events (crawl tg t))
  | Raise e => (Raise e, clock (crawl tg t), events (crawl tg t))
  end.
Proof.
  cbn [mine_all]. unfold bind, ret.
  destruct (mine_target _ _ _ _ _ _ _ _) as [[[[rows|]|e] t1] ev1]; triples.
  - destruct (mine_all _ _ _ _ _ _ _ _ _) as [[r t2] ev2]. reflexivity.
  - rewrite app_nil_r. reflexivity.
  - reflexivity.
Qed.

Lemma mine_all_app ts1 : forall ts2 acc t,
  crawl_all (ts1 ++ ts2) acc t =
  let r1 := crawl_all ts1 acc t in
  match outcome r1 with
  | Ret (Some rows) =>
      let r2 := crawl_all ts2 rows (clock r1) in
      (outcome r2, clock r2, events r1 ++ events r2)
  | _ => r1
  end.
Proof.
  induction ts1 as [|tg ts1 IH]; intros ts2 acc t; cbv zeta.
  - cbn [app mine_all]. unfold ret. triples. cbn [app].
    destruct (mine_all _ _ _ _ _ _ _ _ _) as [[r t2] ev2]. reflexivity.
  - cbn [app]. rewrite !mine_all_cons.
    destruct (outcome (crawl tg t)) as [[rows|]|e]; cbv zeta; triples;
      try reflexivity.
    rewrite IH. cbv zeta.
    destruct (crawl_all ts1 (acc ++ rows) (clock (crawl tg t)))
      as [[[[rows1|]|e1] t2] ev2]; triples; cbv zeta; triples;
      rewrite ?app_assoc; reflexivity.
Qed.

(** X17. Targets are not isolated from each other: when the crawl of one
    target raises, the loop over the targets raises the same exception,
    the rows gathered from the targets before it are dropped, and the
    targets after it are never crawled (the events of the run end with
    those of the failed crawl). *)
Theorem mine_all_aborts
    (ts1 ts2 : list Target) (tg : Target) (acc rows1 : list row)
    (t : nat) (e : exn) :
  let r1 := crawl_all ts1 acc t in
  let r2 := crawl tg (clock r1) in
  outcome r1 = Ret (Some rows1) ->
  outcome r2 = Raise e ->
  crawl_all (ts1 ++ tg :: ts2) acc t = (Raise e, clock r2, events r1 ++ events r2).
Proof.
  cbv zeta. intros H1 H2. rewrite mine_all_app. cbv zeta. rewrite H1.
  rewrite mine_all_cons, H2. triples. reflexivity.
Qed.

(** X18. The loop over the targets ends normally exactly when every crawl
    does, each crawl starting where the one before it stopped; its result
    is then the rows it started with followed by the rows the crawls
    returned, in the order of the targets. *)
Theorem mine_all_rows (ts : list Target) : forall (acc : list row) (t : nat) rows,
  outcome (crawl_all ts acc t) = Ret (Some rows) <->
  exists rowss : list (list row),
    rows = acc ++ concat rowss /\ crawls_in_turn crawl ts rowss t.
Proof.
  induction ts as [|tg ts IH]; intros acc t rows.
  - cbn. split.
    + intros [= <-]. exists []. cbn. rewrite app_nil_r. split; reflexivity.
    + intros ([|rs rowss] & -> & H); [|destruct H]. cbn. rewrite app_nil_r. reflexivity.
  - rewrite mine_all_cons. split.
    + destruct (outcome (crawl tg t)) as [[rs|]|e] eqn:E; cbv zeta; triples;
        try discriminate.
      intros H. apply IH in H as (rowss & -> & Hall).
      exists (rs :: rowss). cbn [concat crawls_in_turn]. rewrite app_assoc.
      split; [reflexivity|]. split; [exact E | exact Hall].
    + intros ([|rs rowss] & -> & H); [destruct H|]. cbn [crawls_in_turn] in H.
      destruct H as [E Hall]. rewrite E. cbv zeta. triples.
      apply IH. exists rowss. cbn [concat]. rewrite app_assoc.
      split; [reflexivity | exact Hall].
Qed.

End MainFacts.

Lemma mine_all_aborts_witness :
  let crawl_all := mine_all UrlParse.urlparse steady demo_site_api_down main_fetcher 10 true 5 in
  let html := html_target join_root demo_soup in
  let r1 := crawl_all [html] [] 0%nat in
  let r2 := mine_target UrlParse.urlparse steady demo_site_api_down main_fetcher json_target
              10 true 5 (clock r1) in
  crawl_all ([html] ++ json_target :: [html]) [] 0%nat
  = (Raise (HTTPError 500 true), clock r2, events r1 ++ events r2).
Proof.
  cbv zeta.
  apply (mine_all_aborts UrlParse.urlparse steady demo_site_api_down main_fetcher 10 true 5
           [html_target join_root demo_soup] [html_target join_root demo_soup]
           json_target []
           [[("title", VStr "Gadget"); ("url", VStr "https://www.tesla.com/p/1");
             ("price", VStr "9"); ("source", VStr "https://www.tesla.com")]]
           0%nat (HTTPError 500 true)).
  - vm_compute. reflexivity.
  - vm_compute. reflexivity.
Defined.

Lemma mine_all_rows_witness :
  exists rowss : list (list row),
    [[("title", VStr "Gadget"); ("url", VStr "https://www.tesla.com/p/1");
      ("price", VStr "9"); ("source", VStr "https://www.tesla.com")];
     [("id", VInt 1); ("name", VStr "a"); ("value", VNone);
      ("source", VStr "https://example.com")];
     [("id", VInt 2); ("name", VNone); ("value", VNone);
      ("source", VStr "https://example.com")]]
    = [] ++ concat rowss /\
    crawls_in_turn
      (fun tg => mine_target UrlParse.urlparse steady demo_site main_fetcher tg 10 true 5)
      [html_target join_root demo_soup; json_target] rowss 0%nat.
Proof.
  apply (proj1 (mine_all_rows UrlParse.urlparse steady demo_site main_fetcher 10 true 5
                  [html_target join_root demo_soup; json_target] [] 0%nat _)).
  vm_compute. reflexivity.
Defined.

(** ** main as a whole *)

Section MainOutcome.

Variable urlparse : string -> result ParseResult.
Variable urljoin : string -> string -> result string.
Variable BeautifulSoup : string -> node.
Variable json_dump : list row -> result unit.
Variable csv_dump : list string -> list (list value) -> result unit.
Variable rt : Runtime.
Variable net : nat -> channel -> string -> answer.
Variable fuel : nat.

Local Abbreviation crawl_html :=
  (mine_target urlparse rt net main_fetcher (html_target urljoin BeautifulSoup) 10 true fuel).
Local Abbreviation crawl_json :=
  (mine_target urlparse rt net main_fetcher json_target 10 true fuel).

Lemma main_unfold (t : nat) :
  main urlparse urljoin BeautifulSoup json_dump csv_dump rt net fuel t =
  let h := crawl_html t in
  match outcome h with
  | Ret (Some rh) =>
      let j := crawl_json (clock h) in
      match outcome j with
      | Ret (Some rj) =>
          match write_json json_dump (rh ++ rj) with
          | Raise e => (Raise e, clock j, events h ++ events j)
          | Ret written =>
              match write_csv_file csv_dump (rh ++ rj) with
              | Raise e => (Raise e, clock j, events h ++ events j)
              | Ret table =>
                  (Ret (Some (mkOutput written table)), clock j,
                   events h ++ events j ++ [EvPrint (done_msg (rh ++ rj))])
              end
          end
      | Ret None => (Ret None, clock j, events h ++ events j)
      | Raise e => (Raise e, clock j, events h ++ events j)
      end
  | Ret None => (Ret None, clock h, events h)
  | Raise e => (Raise e, clock h, events h)
  end.
Proof.
  unfold main. unfold bind at 1. rewrite mine_all_cons. cbv zeta.
  destruct (crawl_html t) as [[[[rh|]|e] t1] ev1]; triples;
    [| unfold ret; rewrite ?app_nil_r; reflexivity | reflexivity].
  rewrite mine_all_cons.
  destruct (crawl_json t1) as [[[[rj|]|e] t2] ev2]; triples;
    cbn [mine_all app]; unfold ret, bind, emit, lift; triples; cbn [app];
    rewrite ?app_nil_r, <- ?app_assoc; try reflexivity.
  destruct (write_json json_dump (rh ++ rj)) as [written|e];
    [|rewrite ?app_nil_r; reflexivity].
  destruct (write_csv_file csv_dump (rh ++ rj)) as [table|e];
    cbn [app]; rewrite ?app_nil_r, <- ?app_assoc; reflexivity.
Qed.


(** X20. One run of [main] sends at most 80 requests for pages (two
    targets, ten pages each, four attempts per page) and at most 20
    requests for robots.txt, whatever the network answers. *)
Theorem main_request_bound (t : nat) :
  let m := main urlparse urljoin BeautifulSoup json_dump csv_dump rt net fuel t in
  (length (session_gets (events m)) <= 80)%nat /\
  (length (requests_gets (events m)) <= 20)%nat.
Proof.
  cbv zeta. rewrite main_unfold. cbv zeta.
  pose proof (crawl_cost urlparse rt net main_fetcher (html_target urljoin BeautifulSoup)
                10 true fuel t) as (Hhs & Hhr).
  pose proof (crawl_cost urlparse rt net main_fetcher json_target 10 true fuel
                (clock (crawl_html t))) as (Hjs & Hjr).
  cbv zeta in Hhs, Hhr, Hjs, Hjr. cbn [max_retries main_fetcher] in Hhs, Hjs.
  destruct (outcome (crawl_html t)) as [[rh|]|e]; triples; [|split; lia..].
  destruct (outcome (crawl_json (clock (crawl_html t)))) as [[rj|]|e];
    [destruct (write_json json_dump (rh ++ rj)) as [written|e];
     [destruct (write_csv_file csv_dump (rh ++ rj)) as [table|e]|]| |]; triples;
    project_requests; rewrite ?length_app; cbn [length]; split; lia.
Qed.

End MainOutcome.
